(** * AudioTee stream extraction: a shallow embedding of [extract_streams.py]

    The script demultiplexes a file of length-prefixed packets into one raw
    file per stream.  The embedding follows the script line by line: Python
    file objects become records with a position and a closed flag, the file
    system is a finite map from paths to byte strings, [struct.unpack] is an
    interpreter for the fragment of format strings the script uses, and the
    [while True] loop is the iteration of its body. *)

From Stdlib Require Import ZArith Lia.
From Stdlib Require Import Strings.Byte Strings.Ascii Strings.String.
From stdpp Require Import gmap strings list fin_maps pretty.

Local Open Scope Z_scope.

(** ** Bytes and integers *)

Abbreviation bytes := (list byte).

Definition byte_val (b : byte) : Z := Z.of_N (Byte.to_N b).

(** [int.from_bytes(bs, 'little')]. *)
Fixpoint le_decode (bs : bytes) : Z :=
  match bs with
  | [] => 0
  | b :: bs' => byte_val b + 256 * le_decode bs'
  end.

(** [int.from_bytes(bs, 'big')]. *)
Definition be_decode (bs : bytes) : Z := le_decode (rev bs).

Definition byte_of_Z (v : Z) : byte :=
  match Byte.of_N (Z.to_N (v mod 256)) with
  | Some b => b
  | None => x00
  end.

(** [v.to_bytes(n, 'little')], keeping the low [n] bytes of [v]. *)
Fixpoint le_bytes (n : nat) (v : Z) : bytes :=
  match n with
  | O => []
  | S n' => byte_of_Z v :: le_bytes n' (v / 256)
  end.

(** ** The [struct] module, for the formats built from [<], [>], [B], [H],
    [I], [L] and [Q]

    With an explicit byte order the sizes are the standard ones and no
    padding is inserted between fields. *)

Inductive byte_order := LittleEndian | BigEndian.

Definition field_width (c : ascii) : option nat :=
  if decide (c = "B"%char) then Some 1%nat
  else if decide (c = "H"%char) then Some 2%nat
  else if decide (c = "I"%char) then Some 4%nat
  else if decide (c = "L"%char) then Some 4%nat
  else if decide (c = "Q"%char) then Some 8%nat
  else None.

Definition decode_field (o : byte_order) (bs : bytes) : Z :=
  match o with
  | LittleEndian => le_decode bs
  | BigEndian => be_decode bs
  end.

(** [None] stands for [struct.error]: an unsupported code, or a buffer whose
    length is not the size of the format. *)
Fixpoint unpack_fields (o : byte_order) (codes : string) (data : bytes)
  : option (list Z) :=
  match codes with
  | EmptyString => if decide (data = []) then Some [] else None
  | String c codes' =>
      match field_width c with
      | None => None
      | Some w =>
          if decide (length data < w)%nat then None
          else
            match unpack_fields o codes' (drop w data) with
            | None => None
            | Some vs => Some (decode_field o (take w data) :: vs)
            end
      end
  end.

Definition struct_unpack (fmt : string) (data : bytes) : option (list Z) :=
  match fmt with
  | String c codes =>
      if decide (c = "<"%char) then unpack_fields LittleEndian codes data
      else if decide (c = ">"%char) then unpack_fields BigEndian codes data
      else None
  | EmptyString => None
  end.

Fixpoint fields_size (codes : string) : option nat :=
  match codes with
  | EmptyString => Some 0%nat
  | String c codes' =>
      match field_width c, fields_size codes' with
      | Some w, Some n => Some (w + n)%nat
      | _, _ => None
      end
  end.

(** [struct.calcsize]. *)
Definition struct_calcsize (fmt : string) : option nat :=
  match fmt with
  | String c codes =>
      if decide (c = "<"%char) then fields_size codes
      else if decide (c = ">"%char) then fields_size codes
      else None
  | EmptyString => None
  end.


(** ** Files

    The file system maps a path to the content of the file stored there.  A
    Python file object is a path, a position and a closed flag; each of the
    script's three file objects is held by one variable only, so the objects
    are threaded through as values, while the file system is the store they
    share.  Reads and writes go to the file system at once (no buffering). *)

Inductive exn := FileNotFoundError | StructError | ValueError.

Record file := { fname : string; fpos : nat; fclosed : bool }.

(** [open(path, 'wb')]: the file is created, or truncated when it exists. *)
Definition open_wb (path : string) (fs : gmap string bytes)
  : file * gmap string bytes :=
  ({| fname := path; fpos := 0; fclosed := false |}, <[path := []]> fs).

(** [open(path, 'rb')]: a missing file raises [FileNotFoundError]. *)
Definition open_rb (path : string) (fs : gmap string bytes) : exn + file :=
  match fs !! path with
  | Some _ => inr {| fname := path; fpos := 0; fclosed := false |}
  | None => inl FileNotFoundError
  end.

Definition file_content (fl : file) (fs : gmap string bytes) : bytes :=
  default [] (fs !! fname fl).

(** [fl.read(size)]: up to [size] bytes from the position on, all that is
    left when fewer remain (or when [size] is negative). *)
Definition file_read (fl : file) (size : Z) (fs : gmap string bytes)
  : exn + (bytes * file) :=
  if fclosed fl then inl ValueError
  else
    let rest := drop (fpos fl) (file_content fl fs) in
    let data := if decide (size < 0) then rest else take (Z.to_nat size) rest in
    inr (data, {| fname := fname fl;
                  fpos := fpos fl + length data;
                  fclosed := false |}).

(** The content of a file after [data] is written at offset [at_]: bytes
    before the offset stay (a gap is filled with zeros), the bytes after
    the written range stay.  Writing nothing changes nothing. *)
Definition overwrite (at_ : nat) (data old : bytes) : bytes :=
  match data with
  | [] => old
  | _ =>
      take at_ old ++ replicate (at_ - length old) x00 ++ data
        ++ drop (at_ + length data) old
  end.

(** [fl.write(data)]. *)
Definition file_write (fl : file) (data : bytes) (fs : gmap string bytes)
  : exn + (file * gmap string bytes) :=
  if fclosed fl then inl ValueError
  else
    inr ({| fname := fname fl;
            fpos := fpos fl + length data;
            fclosed := false |},
         <[fname fl := overwrite (fpos fl) data (file_content fl fs)]> fs).

(** [fl.close()]. *)
Definition file_close (fl : file) : file :=
  {| fname := fname fl; fpos := fpos fl; fclosed := true |}.

(** ** The demultiplexing loop *)

(** The dictionary [packet_count], whose two keys never change. *)
Record counts := { system : Z; mic : Z }.

(** The variables of the [with] block, and the file system. *)
Record session := {
  fs : gmap string bytes;
  f : file;
  system_file : option file;
  mic_file : option file;
  packet_count : counts
}.

Definition set_f (fl : file) (s : session) : session :=
  {| fs := fs s; f := fl; system_file := system_file s;
     mic_file := mic_file s; packet_count := packet_count s |}.

(** Lines 18 to 28: read a header and its payload. *)
Inductive packet_read :=
  | EndOfStream (s : session)
  | GotPacket (stream_id timestamp_us packet_size : Z) (audio_data : bytes)
              (s : session)
  | ReadError (e : exn) (s : session).

Definition read_packet (s : session) : packet_read :=
  match file_read (f s) 13 (fs s) with
  | inl e => ReadError e s
  | inr (header, f1) =>
      if decide (length header < 13)%nat then EndOfStream (set_f f1 s)
      else
        match struct_unpack "<BQL" header with
        | Some [stream_id; timestamp_us; packet_size] =>
            match file_read f1 packet_size (fs s) with
            | inl e => ReadError e (set_f f1 s)
            | inr (audio_data, f2) =>
                if decide (Z.of_nat (length audio_data) < packet_size)
                then EndOfStream (set_f f2 s)
                else GotPacket stream_id timestamp_us packet_size audio_data
                       (set_f f2 s)
            end
        | Some _ => ReadError ValueError (set_f f1 s)
        | None => ReadError StructError (set_f f1 s)
        end
  end.

(** Lines 31 to 36: write the payload to the sink of its stream. *)
Inductive step :=
  | Continue (s : session)
  | Break (s : session)
  | Raise (e : exn) (s : session).

Definition dispatch (stream_id : Z) (audio_data : bytes) (s : session) : step :=
  match stream_id =? 0, system_file s with
  | true, Some sf =>
      match file_write sf audio_data (fs s) with
      | inl e => Raise e s
      | inr (sf', fs') =>
          Continue {| fs := fs'; f := f s; system_file := Some sf';
                      mic_file := mic_file s;
                      packet_count :=
                        {| system := system (packet_count s) + 1;
                           mic := mic (packet_count s) |} |}
      end
  | _, _ =>
      match stream_id =? 1, mic_file s with
      | true, Some mf =>
          match file_write mf audio_data (fs s) with
          | inl e => Raise e s
          | inr (mf', fs') =>
              Continue {| fs := fs'; f := f s; system_file := system_file s;
                          mic_file := Some mf';
                          packet_count :=
                            {| system := system (packet_count s);
                               mic := mic (packet_count s) + 1 |} |}
          end
      | _, _ => Continue s
      end
  end.

(** One iteration of [while True]. *)
Definition loop_body (s : session) : step :=
  match read_packet s with
  | EndOfStream s' => Break s'
  | ReadError e s' => Raise e s'
  | GotPacket stream_id _ _ audio_data s' => dispatch stream_id audio_data s'
  end.

Inductive loop_result :=
  | LoopExit (s : session)
  | LoopRaise (e : exn) (s : session)
  | OutOfFuel.

(** The loop, cut off after [fuel] iterations. *)
Fixpoint demux_loop (fuel : nat) (s : session) : loop_result :=
  match fuel with
  | O => OutOfFuel
  | S fuel' =>
      match loop_body s with
      | Continue s' => demux_loop fuel' s'
      | Break s' => LoopExit s'
      | Raise e s' => LoopRaise e s'
      end
  end.

(** The session after [k] iterations, when none of them left the loop. *)
Fixpoint iterations (k : nat) (s : session) : option session :=
  match k with
  | O => Some s
  | S k' =>
      match loop_body s with
      | Continue s' => iterations k' s'
      | _ => None
      end
  end.

(** ** [extract_streams] *)

Inductive pyval := PyNone | PyTuple (a b : Z).

(** What an invocation leaves behind: the file system, the three file
    objects ([None] for one that was never created), the counters (once the
    [with] block was entered) and the lines printed. *)
Record final := {
  out_fs : gmap string bytes;
  out_input : option file;
  out_system : option file;
  out_mic : option file;
  out_count : option counts;
  out_stdout : list string
}.

Inductive outcome :=
  | Returned (v : pyval) (r : final)
  | Raised (e : exn) (r : final)
  | NoResult.

(** [open(path, 'wb') if path else None]: [None] and the empty string are
    both false. *)
Definition open_if_given (path : option string) (fs0 : gmap string bytes)
  : option file * gmap string bytes :=
  match path with
  | Some p =>
      if decide (p = EmptyString) then (None, fs0)
      else let '(fl, fs') := open_wb p fs0 in (Some fl, fs')
  | None => (None, fs0)
  end.

Definition print_system (n : Z) (path : option string) : string :=
  ("Extracted " +:+ pretty n +:+ " system audio packets to "
     +:+ default "None" path)%string.

Definition print_mic (n : Z) (path : option string) : string :=
  ("Extracted " +:+ pretty n +:+ " microphone packets to "
     +:+ default "None" path)%string.

(** Lines 10 to 14: the three [open] calls and the counters.  When the
    input cannot be opened the sinks opened before it stay as they are. *)
Definition open_files (input_file : string)
    (system_output mic_output : option string) (fs0 : gmap string bytes)
  : exn * final + session :=
  let '(system_file0, fs1) := open_if_given system_output fs0 in
  let '(mic_file0, fs2) := open_if_given mic_output fs1 in
  match open_rb input_file fs2 with
  | inl e =>
      inl (e, {| out_fs := fs2; out_input := None;
                 out_system := system_file0; out_mic := mic_file0;
                 out_count := None; out_stdout := [] |})
  | inr f0 =>
      inr {| fs := fs2; f := f0; system_file := system_file0;
             mic_file := mic_file0;
             packet_count := {| system := 0; mic := 0 |} |}
  end.

(** The end of the [with] block closes the input; lines 38 to 44 close each
    sink that was opened and print its count. *)
Definition close_files (system_output mic_output : option string)
    (s : session) : final :=
  let input := file_close (f s) in
  let lines1 :=
    match system_file s with
    | Some _ => [print_system (system (packet_count s)) system_output]
    | None => []
    end in
  let lines2 :=
    match mic_file s with
    | Some _ => [print_mic (mic (packet_count s)) mic_output]
    | None => []
    end in
  {| out_fs := fs s; out_input := Some input;
     out_system := file_close <$> system_file s;
     out_mic := file_close <$> mic_file s;
     out_count := Some (packet_count s);
     out_stdout := lines1 ++ lines2 |}.

(** An exception in the [with] block closes the input and leaves the
    function; lines 38 to 44 are not reached. *)
Definition abandon (s : session) : final :=
  {| out_fs := fs s; out_input := Some (file_close (f s));
     out_system := system_file s; out_mic := mic_file s;
     out_count := Some (packet_count s); out_stdout := [] |}.

Definition extract_streams_fuel (fuel : nat) (input_file : string)
    (system_output mic_output : option string) (fs0 : gmap string bytes)
  : outcome :=
  match open_files input_file system_output mic_output fs0 with
  | inl (e, r) => Raised e r
  | inr s0 =>
      match demux_loop fuel s0 with
      | OutOfFuel => NoResult
      | LoopRaise e s => Raised e (abandon s)
      | LoopExit s => Returned PyNone (close_files system_output mic_output s)
      end
  end.

(** No iteration reads fewer than the thirteen bytes of a header without
    leaving the loop, so the loop never runs for more iterations than the
    input has bytes. *)
Definition extract_streams (input_file : string)
    (system_output mic_output : option string) (fs0 : gmap string bytes)
  : outcome :=
  extract_streams_fuel (S (length (default [] (fs0 !! input_file))))
    input_file system_output mic_output fs0.

(** ** The file format, from the producer's side

    A packet is a stream identifier, a timestamp and a payload; it is stored
    as the thirteen-byte header followed by the payload. *)

Record packet := { pk_stream : Z; pk_time : Z; pk_payload : bytes }.

Definition encode_header (stream_id timestamp_us packet_size : Z) : bytes :=
  le_bytes 1 stream_id ++ le_bytes 8 timestamp_us ++ le_bytes 4 packet_size.

Definition encode_packet (p : packet) : bytes :=
  encode_header (pk_stream p) (pk_time p) (Z.of_nat (length (pk_payload p)))
    ++ pk_payload p.

Definition encode_all (ps : list packet) : bytes :=
  concat (map encode_packet ps).

(** The fields fit their widths. *)
Definition valid_packet (p : packet) : Prop :=
  0 <= pk_stream p < 256 /\ 0 <= pk_time p < 2 ^ 64
  /\ Z.of_nat (length (pk_payload p)) < 2 ^ 32.

(** What is left of a file after its last complete packet: fewer than
    thirteen bytes, or a header that declares more payload than follows. *)
Definition partial_packet (tail : bytes) : Prop :=
  (length tail < 13)%nat
  \/ exists stream_id timestamp_us packet_size,
       struct_unpack "<BQL" (take 13 tail)
         = Some [stream_id; timestamp_us; packet_size]
       /\ Z.of_nat (length (drop 13 tail)) < packet_size.

(** The payloads of the packets of one stream, in file order. *)
Definition stream_payloads (id : Z) (ps : list packet) : bytes :=
  concat (map pk_payload (filter (fun p => pk_stream p = id) ps)).

Definition stream_count (id : Z) (ps : list packet) : Z :=
  Z.of_nat (length (filter (fun p => pk_stream p = id) ps)).

Definition bytes_of (s : string) : bytes := list_byte_of_string s.

Definition scenario : list packet :=
  [ {| pk_stream := 0; pk_time := 1000; pk_payload := bytes_of "AAAA" |};
    {| pk_stream := 1; pk_time := 2000; pk_payload := bytes_of "BBB" |};
    {| pk_stream := 0; pk_time := 3000; pk_payload := bytes_of "CC" |} ].

(** The input of the concrete scenario, header by header. *)
Definition scenario_input : bytes :=
  encode_header 0 1000 4 ++ bytes_of "AAAA"
    ++ encode_header 1 2000 3 ++ bytes_of "BBB"
    ++ encode_header 0 3000 2 ++ bytes_of "CC".

Definition scenario_fs : gmap string bytes :=
  {[ "capture.bin"%string := scenario_input ]}.

(** The scenario followed by five bytes of a fourth header. *)
Definition truncated_input : bytes :=
  scenario_input ++ take 5 (encode_header 0 4000 2).

Definition truncated_fs : gmap string bytes :=
  {[ "capture.bin"%string := truncated_input ]}.

(** What the run on the scenario leaves behind. *)
Definition scenario_final : final :=
  {| out_fs := {[ "capture.bin"%string := scenario_input;
                  "system.pcm"%string := bytes_of "AAAACC";
                  "mic.pcm"%string := bytes_of "BBB" ]};
     out_input :=
       Some {| fname := "capture.bin"; fpos := 48; fclosed := true |};
     out_system :=
       Some {| fname := "system.pcm"; fpos := 6; fclosed := true |};
     out_mic := Some {| fname := "mic.pcm"; fpos := 3; fclosed := true |};
     out_count := Some {| system := 2; mic := 1 |};
     out_stdout := [ "Extracted 2 system audio packets to system.pcm"%string;
                     "Extracted 1 microphone packets to mic.pcm"%string ] |}.

(** A packet without payload, followed by a packet with one. *)
Definition silent_packet : packet :=
  {| pk_stream := 0; pk_time := 7; pk_payload := [] |}.

Definition silent_capture : list packet :=
  [ silent_packet;
    {| pk_stream := 1; pk_time := 8; pk_payload := bytes_of "Z" |} ].

Definition silent_fs : gmap string bytes :=
  {[ "capture.bin"%string := encode_all silent_capture ]}.

(** ** Sessions in the middle of a run

    The shape of every session the loop reaches when the input, the system
    sink and the microphone sink are three different files: the input has
    been read up to [at_], and each sink that was asked for holds what was
    written to it, its file object standing at the end. *)

Definition put (path : option string) (b : bytes) (m : gmap string bytes)
  : gmap string bytes :=
  match path with
  | Some p => <[p := b]> m
  | None => m
  end.

Definition sink (path : option string) (written : bytes) : option file :=
  match path with
  | Some p => Some {| fname := p; fpos := length written; fclosed := false |}
  | None => None
  end.

Definition mk_session (base : gmap string bytes) (input_file : string)
    (at_ : nat) (so mo : option string) (sys_out mic_out : bytes)
    (cnt : counts) : session :=
  {| fs := put mo mic_out (put so sys_out base);
     f := {| fname := input_file; fpos := at_; fclosed := false |};
     system_file := sink so sys_out;
     mic_file := sink mo mic_out;
     packet_count := cnt |}.

(** The three paths name three files. *)
Definition distinct_paths (input_file : string) (so mo : option string) : Prop :=
  so <> Some input_file /\ mo <> Some input_file
  /\ (forall p, so = Some p -> mo <> Some p).

(** The sink that [open(path, 'wb') if path else None] opens. *)
Definition requested (path : option string) : option string :=
  match path with
  | Some p => if decide (p = EmptyString) then None else Some p
  | None => None
  end.

(** What one packet adds to the sink at [path] that takes stream [id]. *)
Definition routed (path : option string) (id : Z) (p : packet) : bytes :=
  match path with
  | Some _ => if decide (pk_stream p = id) then pk_payload p else []
  | None => []
  end.

Definition counted (path : option string) (id : Z) (p : packet) : Z :=
  match path with
  | Some _ => if decide (pk_stream p = id) then 1 else 0
  | None => 0
  end.

Definition written (path : option string) (id : Z) (ps : list packet) : bytes :=
  concat (map (routed path id) ps).

Definition tally (path : option string) (id : Z) (ps : list packet) : Z :=
  foldr Z.add 0 (map (counted path id) ps).

(** The payload bytes of the packets that reach no sink. *)
Definition reaches_sink (so mo : option string) (p : packet) : bool :=
  match pk_stream p =? 0, so with
  | true, Some _ => true
  | _, _ =>
      match pk_stream p =? 1, mo with
      | true, Some _ => true
      | _, _ => false
      end
  end.

Definition dropped (so mo : option string) (p : packet) : bytes :=
  if reaches_sink so mo p then [] else pk_payload p.

Definition dropped_bytes (so mo : option string) (ps : list packet) : nat :=
  length (concat (map (dropped so mo) ps)).

Definition payload_bytes (ps : list packet) : nat :=
  length (concat (map pk_payload ps)).

(** No sink of the session is the file the session reads. *)
Definition input_apart (s : session) : Prop :=
  fname <$> system_file s <> Some (fname (f s))
  /\ fname <$> mic_file s <> Some (fname (f s)).

(** The bytes of the input that lie after the position of the reader. *)
Definition remaining (s : session) : nat :=
  length (file_content (f s) (fs s)) - fpos (f s).

(** The size of the file a sink writes to. *)
Definition sink_bytes (sink_file : option file) (m : gmap string bytes) : nat :=
  match sink_file with
  | Some fl => length (file_content fl m)
  | None => 0
  end.

(** ** The script's entry point (lines 46 to 55)

    The script is run with [sys.argv]; [argv[i]] raises [IndexError] when
    [i] is not below the length of the list, and [sys.exit(1)] ends the
    script with status 1. *)

Definition usage : string :=
  "Usage: python3 extract_streams.py <input_file> [system_output.pcm] [mic_output.pcm]".

Inductive script_result :=
  | Ran (o : outcome)
  | SysExit (status : Z) (stdout : list string) (fs_left : gmap string bytes)
  | IndexError.

Definition main (argv : list string) (fs0 : gmap string bytes)
  : script_result :=
  if decide (length argv < 2)%nat then SysExit 1 [usage] fs0
  else
    match argv !! 1%nat with
    | None => IndexError
    | Some input_file =>
        match (if decide (2 < length argv)%nat then argv !! 2%nat
               else Some "system_extracted.pcm"%string) with
        | None => IndexError
        | Some system_output =>
            match (if decide (3 < length argv)%nat then argv !! 3%nat
                   else Some "mic_extracted.pcm"%string) with
            | None => IndexError
            | Some mic_output =>
                Ran (extract_streams input_file (Some system_output)
                       (Some mic_output) fs0)
            end
        end
    end.

(** Every file object of the session is open. *)
Definition all_open (s : session) : Prop :=
  fclosed (f s) = false
  /\ (forall fl, system_file s = Some fl -> fclosed fl = false)
  /\ (forall fl, mic_file s = Some fl -> fclosed fl = false).

(** What routing looks at in a packet: its stream and its payload. *)
Definition routing_view (p : packet) : Z * bytes :=
  (pk_stream p, pk_payload p).

(** * Properties *)

Example calcsize_BQL : struct_calcsize "<BQL" = Some 13%nat.
Proof. reflexivity. Qed.

(** ** Integers and their bytes *)

Lemma byte_val_range (b : byte) : 0 <= byte_val b < 256.
Proof.
  unfold byte_val. pose proof (Byte.to_N_bounded b). lia.
Qed.

Lemma byte_val_of_Z (v : Z) : byte_val (byte_of_Z v) = v mod 256.
Proof.
  unfold byte_val, byte_of_Z.
  pose proof (Z.mod_pos_bound v 256 ltac:(lia)) as Hr.
  destruct (Byte.of_N (Z.to_N (v mod 256))) as [b|] eqn:Hb.
  - apply Byte.to_of_N in Hb. rewrite Hb. lia.
  - apply Byte.of_N_None_iff in Hb. lia.
Qed.

Lemma length_le_bytes (n : nat) (v : Z) : length (le_bytes n v) = n.
Proof. revert v. induction n as [|n IH]; intros v; simpl; [done | by rewrite IH]. Qed.

Lemma le_decode_range (bs : bytes) : 0 <= le_decode bs < 256 ^ Z.of_nat (length bs).
Proof.
  induction bs as [|b bs IH]; simpl length; simpl le_decode; [simpl; lia|].
  pose proof (byte_val_range b).
  rewrite Nat2Z.inj_succ, Z.pow_succ_r by lia. lia.
Qed.

Lemma le_decode_le_bytes (n : nat) (v : Z) :
  le_decode (le_bytes n v) = v mod 256 ^ Z.of_nat n.
Proof.
  revert v. induction n as [|n IH]; intros v.
  - simpl. by rewrite Z.mod_1_r.
  - cbn [le_bytes le_decode]. rewrite byte_val_of_Z, IH.
    rewrite Nat2Z.inj_succ, Z.pow_succ_r by lia.
    rewrite Z.rem_mul_r by lia. lia.
Qed.

Lemma le_decode_le_bytes_small (n : nat) (v : Z) :
  0 <= v < 256 ^ Z.of_nat n -> le_decode (le_bytes n v) = v.
Proof. intros Hv. rewrite le_decode_le_bytes. by apply Z.mod_small. Qed.

(** ** The header format *)

Lemma unpack_fields_size (o : byte_order) (codes : string) :
  forall (data : bytes) (vs : list Z),
    unpack_fields o codes data = Some vs ->
    fields_size codes = Some (length data) /\ length vs = String.length codes.
Proof.
  induction codes as [|c codes IH]; intros data vs; simpl.
  - case_decide; [|done]. intros [= <-]. by subst.
  - destruct (field_width c) as [w|]; [|done].
    case_decide; [done|].
    destruct (unpack_fields o codes (drop w data)) as [vs'|] eqn:Hrec; [|done].
    intros [= <-]. destruct (IH _ _ Hrec) as [-> Hvs].
    rewrite length_drop. simpl. split; [f_equal; lia | by rewrite Hvs].
Qed.

Lemma unpack_BQL_length (header : bytes) (vs : list Z) :
  struct_unpack "<BQL" header = Some vs -> length header = 13%nat.
Proof.
  intros H. change (unpack_fields LittleEndian "BQL" header = Some vs) in H.
  apply unpack_fields_size in H as [H _]. simpl in H. by injection H.
Qed.

Lemma unpack_BQL_fields (header : bytes) :
  length header = 13%nat ->
  struct_unpack "<BQL" header
  = Some [ le_decode (take 1 header);
           le_decode (take 8 (drop 1 header));
           le_decode (take 4 (drop 9 header)) ].
Proof.
  intros Hlen. unfold struct_unpack. simpl.
  rewrite !decide_False by (rewrite ?length_drop; lia).
  rewrite !drop_drop. simpl.
  rewrite decide_True; [done|].
  apply nil_length_inv. rewrite length_drop. lia.
Qed.

Lemma unpack_encode_header (stream_id timestamp_us packet_size : Z) :
  struct_unpack "<BQL" (encode_header stream_id timestamp_us packet_size)
  = Some [stream_id mod 256; timestamp_us mod 2 ^ 64; packet_size mod 2 ^ 32].
Proof.
  rewrite unpack_BQL_fields
    by (unfold encode_header; rewrite !length_app, !length_le_bytes; lia).
  unfold encode_header.
  rewrite take_app_length' by (by rewrite length_le_bytes).
  rewrite drop_app_length' by (by rewrite length_le_bytes).
  rewrite take_app_length' by (by rewrite length_le_bytes).
  replace (drop 9 (le_bytes 1 stream_id ++ le_bytes 8 timestamp_us
                     ++ le_bytes 4 packet_size))
    with (le_bytes 4 packet_size).
  2:{ rewrite app_assoc. rewrite drop_app_length'; [done|].
      rewrite length_app, !length_le_bytes. lia. }
  rewrite take_ge by (rewrite length_le_bytes; lia).
  by rewrite !le_decode_le_bytes.
Qed.

Lemma length_encode_header (stream_id timestamp_us packet_size : Z) :
  length (encode_header stream_id timestamp_us packet_size) = 13%nat.
Proof. unfold encode_header. rewrite !length_app, !length_le_bytes. lia. Qed.

(** ** Files *)

Lemma file_read_open (fl : file) (size : Z) (m : gmap string bytes)
    (pre rest : bytes) :
  fclosed fl = false -> 0 <= size ->
  m !! fname fl = Some (pre ++ rest) -> fpos fl = length pre ->
  file_read fl size m
  = inr (take (Z.to_nat size) rest,
         {| fname := fname fl;
            fpos := length pre + length (take (Z.to_nat size) rest);
            fclosed := false |}).
Proof.
  intros Hopen Hsize Hm Hpos. unfold file_read, file_content.
  rewrite Hopen, Hm, Hpos. simpl.
  rewrite drop_app_length. by rewrite decide_False by lia.
Qed.

Lemma overwrite_end (data old : bytes) :
  overwrite (length old) data old = old ++ data.
Proof.
  unfold overwrite. destruct data as [|b data]; [by rewrite app_nil_r|].
  rewrite firstn_all, Nat.sub_diag. simpl.
  rewrite drop_ge by lia. by rewrite app_nil_r.
Qed.

Lemma file_write_end (fl : file) (data old : bytes) (m : gmap string bytes) :
  fclosed fl = false -> m !! fname fl = Some old -> fpos fl = length old ->
  file_write fl data m
  = inr ({| fname := fname fl; fpos := length (old ++ data); fclosed := false |},
         <[fname fl := old ++ data]> m).
Proof.
  intros Hopen Hm Hpos. unfold file_write, file_content.
  rewrite Hopen, Hm, Hpos. simpl. by rewrite overwrite_end, length_app.
Qed.

(** ** The file system of a session *)

Lemma put_lookup_ne (path : option string) (b : bytes) (m : gmap string bytes)
    (k : string) :
  path <> Some k -> put path b m !! k = m !! k.
Proof.
  destruct path as [p|]; simpl; [|done].
  intros Hne. apply lookup_insert_ne. congruence.
Qed.

Lemma put_lookup_eq (b : bytes) (m : gmap string bytes) (k : string) :
  put (Some k) b m !! k = Some b.
Proof. apply lookup_insert_eq. Qed.

Lemma put_put (path : option string) (b b' : bytes) (m : gmap string bytes) :
  put path b' (put path b m) = put path b' m.
Proof. destruct path; simpl; [apply insert_insert_eq | done]. Qed.

Lemma put_commute (p1 p2 : option string) (b1 b2 : bytes)
    (m : gmap string bytes) :
  (forall p, p1 = Some p -> p2 <> Some p) ->
  put p1 b1 (put p2 b2 m) = put p2 b2 (put p1 b1 m).
Proof.
  destruct p1 as [k1|], p2 as [k2|]; simpl; try done.
  intros Hne. apply insert_insert_ne. intros ->. by apply (Hne k2).
Qed.

Section Session.
Variables (base : gmap string bytes) (input_file : string).
Variables (so mo : option string).
Hypothesis Hpaths : distinct_paths input_file so mo.

Lemma session_input (sys_out mic_out : bytes) :
  put mo mic_out (put so sys_out base) !! input_file = base !! input_file.
Proof.
  destruct Hpaths as (Hs & Hm & _). by rewrite !put_lookup_ne.
Qed.

Lemma session_system (sp : string) (sys_out mic_out : bytes) :
  so = Some sp ->
  put mo mic_out (put so sys_out base) !! sp = Some sys_out.
Proof.
  intros ->. destruct Hpaths as (_ & _ & Hd).
  rewrite put_lookup_ne by (by apply Hd). apply put_lookup_eq.
Qed.

Lemma session_mic (mp : string) (sys_out mic_out : bytes) :
  mo = Some mp ->
  put mo mic_out (put so sys_out base) !! mp = Some mic_out.
Proof. intros ->. apply put_lookup_eq. Qed.

Lemma session_write_system (sp : string) (sys_out sys_out' mic_out : bytes) :
  so = Some sp ->
  <[sp := sys_out']> (put mo mic_out (put so sys_out base))
  = put mo mic_out (put so sys_out' base).
Proof.
  intros ->. destruct Hpaths as (_ & _ & Hd).
  change (put (Some sp) sys_out' (put mo mic_out (put (Some sp) sys_out base))
          = put mo mic_out (put (Some sp) sys_out' base)).
  rewrite (put_commute mo (Some sp)).
  - by rewrite put_put, (put_commute mo (Some sp)) by
      (intros p -> [= ->]; by apply (Hd p)).
  - intros p -> [= ->]. by apply (Hd p).
Qed.

Lemma session_write_mic (mp : string) (sys_out mic_out mic_out' : bytes) :
  mo = Some mp ->
  <[mp := mic_out']> (put mo mic_out (put so sys_out base))
  = put mo mic_out' (put so sys_out base).
Proof. intros ->. simpl. apply insert_insert_eq. Qed.
End Session.

(** ** Reading one packet *)

Lemma read_packet_complete (s : session) (pre header payload rest : bytes) :
  fclosed (f s) = false ->
  fs s !! fname (f s) = Some (pre ++ header ++ payload ++ rest) ->
  fpos (f s) = length pre ->
  length header = 13%nat ->
  le_decode (take 4 (drop 9 header)) = Z.of_nat (length payload) ->
  read_packet s
  = GotPacket (le_decode (take 1 header)) (le_decode (take 8 (drop 1 header)))
      (Z.of_nat (length payload)) payload
      (set_f {| fname := fname (f s);
                fpos := length pre + 13 + length payload;
                fclosed := false |} s).
Proof.
  intros Hopen Hm Hpos Hlen Hsize. unfold read_packet.
  rewrite (file_read_open _ _ _ pre (header ++ payload ++ rest)) by (done || lia).
  change (Z.to_nat 13) with 13%nat.
  rewrite (take_app_length' header _ 13) by done.
  rewrite decide_False by lia.
  rewrite unpack_BQL_fields by done. rewrite Hsize.
  rewrite (file_read_open _ _ _ (pre ++ header) (payload ++ rest));
    [| done | lia | by rewrite <- app_assoc | by rewrite length_app].
  rewrite Nat2Z.id, take_app_length. rewrite decide_False by lia.
  do 2 f_equal. simpl. f_equal. rewrite length_app. lia.
Qed.

Lemma read_packet_partial (s : session) (pre tail : bytes) :
  fclosed (f s) = false ->
  fs s !! fname (f s) = Some (pre ++ tail) ->
  fpos (f s) = length pre ->
  partial_packet tail ->
  read_packet s
  = EndOfStream (set_f {| fname := fname (f s);
                          fpos := length pre + length tail;
                          fclosed := false |} s).
Proof.
  intros Hopen Hm Hpos Htail. unfold read_packet.
  rewrite (file_read_open _ _ _ pre tail) by (done || lia).
  change (Z.to_nat 13) with 13%nat.
  destruct Htail as [Hshort | (id & ts & size & Hhdr & Hpay)].
  - rewrite decide_True by (rewrite length_take; lia).
    by rewrite take_ge by lia.
  - pose proof (unpack_BQL_length _ _ Hhdr) as Hlen.
    rewrite decide_False by lia. rewrite Hhdr.
    assert (0 <= size) as Hpos' by lia.
    rewrite (file_read_open _ _ _ (pre ++ take 13 tail) (drop 13 tail));
      [| done | lia | by rewrite <- app_assoc, take_drop
       | by rewrite length_app ].
    rewrite take_ge by lia. rewrite decide_True by done.
    do 2 f_equal. simpl. f_equal.
    rewrite length_app, length_take, length_drop in *. lia.
Qed.

(** A packet written by [encode_packet] is read back as it was. *)
Lemma read_packet_encoded (s : session) (pre rest : bytes) (p : packet) :
  fclosed (f s) = false ->
  fs s !! fname (f s) = Some (pre ++ encode_packet p ++ rest) ->
  fpos (f s) = length pre ->
  valid_packet p ->
  read_packet s
  = GotPacket (pk_stream p) (pk_time p) (Z.of_nat (length (pk_payload p)))
      (pk_payload p)
      (set_f {| fname := fname (f s);
                fpos := length pre + length (encode_packet p);
                fclosed := false |} s).
Proof.
  intros Hopen Hm Hpos (Hid & Hts & Hsz).
  unfold encode_packet in *. rewrite <- app_assoc in Hm.
  pose proof (unpack_encode_header (pk_stream p) (pk_time p)
                (Z.of_nat (length (pk_payload p)))) as Hun.
  pose proof (length_encode_header (pk_stream p) (pk_time p)
                (Z.of_nat (length (pk_payload p)))) as Hlen.
  remember (encode_header (pk_stream p) (pk_time p)
              (Z.of_nat (length (pk_payload p)))) as header eqn:Hhdr.
  rewrite unpack_BQL_fields in Hun by done.
  rewrite !Z.mod_small in Hun by lia. injection Hun as H1 H2 H3.
  rewrite (read_packet_complete s pre _ _ rest Hopen Hm Hpos Hlen H3).
  rewrite H1, H2, length_app, Hlen.
  do 3 f_equal. lia.
Qed.

(** ** Routing one packet *)

Lemma dispatch_system (s : session) (sf : file) (audio_data : bytes) :
  system_file s = Some sf ->
  dispatch 0 audio_data s
  = match file_write sf audio_data (fs s) with
    | inl e => Raise e s
    | inr (sf', fs') =>
        Continue {| fs := fs'; f := f s; system_file := Some sf';
                    mic_file := mic_file s;
                    packet_count :=
                      {| system := system (packet_count s) + 1;
                         mic := mic (packet_count s) |} |}
    end.
Proof. intros H. unfold dispatch. by rewrite H. Qed.

Lemma dispatch_mic (s : session) (mf : file) (audio_data : bytes) :
  mic_file s = Some mf ->
  dispatch 1 audio_data s
  = match file_write mf audio_data (fs s) with
    | inl e => Raise e s
    | inr (mf', fs') =>
        Continue {| fs := fs'; f := f s; system_file := system_file s;
                    mic_file := Some mf';
                    packet_count :=
                      {| system := system (packet_count s);
                         mic := mic (packet_count s) + 1 |} |}
    end.
Proof. intros H. unfold dispatch. simpl. by rewrite H. Qed.

Lemma dispatch_drop (s : session) (stream_id : Z) (audio_data : bytes) :
  stream_id <> 0 \/ system_file s = None ->
  stream_id <> 1 \/ mic_file s = None ->
  dispatch stream_id audio_data s = Continue s.
Proof.
  intros H0 H1. unfold dispatch.
  destruct (Z.eqb_spec stream_id 0) as [E0|E0],
           (Z.eqb_spec stream_id 1) as [E1|E1],
           (system_file s) as [sf|], (mic_file s) as [mf|];
    try done; destruct H0, H1; done.
Qed.

(** ** One iteration on three different files *)

Lemma routed_other (path : option string) (id : Z) (p : packet) :
  pk_stream p <> id -> routed path id p = [] /\ counted path id p = 0.
Proof.
  intros Hne. unfold routed, counted.
  destruct path; [by rewrite !decide_False by done | done].
Qed.

Lemma routed_same (k : string) (p : packet) :
  routed (Some k) (pk_stream p) p = pk_payload p
  /\ counted (Some k) (pk_stream p) p = 1.
Proof. unfold routed, counted. by rewrite !decide_True by done. Qed.

Lemma session_same (base : gmap string bytes) (input_file : string)
    (so mo : option string) (at_ : nat) (sys_out mic_out : bytes)
    (cnt : counts) :
  mk_session base input_file at_ so mo (sys_out ++ []) (mic_out ++ [])
    {| system := system cnt + 0; mic := mic cnt + 0 |}
  = mk_session base input_file at_ so mo sys_out mic_out cnt.
Proof. rewrite !app_nil_r, !Z.add_0_r. by destruct cnt. Qed.

Lemma dispatch_session (base : gmap string bytes) (input_file : string)
    (so mo : option string) (at_ : nat) (sys_out mic_out : bytes)
    (cnt : counts) (p : packet) :
  distinct_paths input_file so mo ->
  dispatch (pk_stream p) (pk_payload p)
    (mk_session base input_file at_ so mo sys_out mic_out cnt)
  = Continue
      (mk_session base input_file at_ so mo
         (sys_out ++ routed so 0 p) (mic_out ++ routed mo 1 p)
         {| system := system cnt + counted so 0 p;
            mic := mic cnt + counted mo 1 p |}).
Proof.
  intros Hpaths.
  destruct (decide (pk_stream p = 0)) as [E0|E0];
    [|destruct (decide (pk_stream p = 1)) as [E1|E1]].
  - destruct (routed_other mo 1 p) as [-> ->]; [lia|].
    destruct so as [sp|].
    + pose proof (routed_same sp p) as Hr. rewrite E0 in Hr.
      destruct Hr as [-> ->]. rewrite E0. erewrite dispatch_system by done.
      erewrite file_write_end;
        [| done
         | by apply (session_system base input_file (Some sp) mo Hpaths)
         | done ].
      unfold mk_session.
      cbn [fs f system_file mic_file packet_count fname system mic sink].
      rewrite (session_write_system base input_file (Some sp) mo Hpaths sp)
        by done.
      by rewrite app_nil_r, Z.add_0_r.
    + rewrite dispatch_drop by (first [left; lia | right; reflexivity]).
      by rewrite session_same.
  - destruct (routed_other so 0 p) as [-> ->]; [lia|].
    destruct mo as [mp|].
    + pose proof (routed_same mp p) as Hr. rewrite E1 in Hr.
      destruct Hr as [-> ->]. rewrite E1. erewrite dispatch_mic by done.
      erewrite file_write_end;
        [| done | by apply (session_mic base input_file so (Some mp) Hpaths) | done ].
      unfold mk_session.
      cbn [fs f system_file mic_file packet_count fname system mic sink].
      rewrite (session_write_mic base input_file so (Some mp) Hpaths mp) by done.
      by rewrite app_nil_r, Z.add_0_r.
    + rewrite dispatch_drop by (first [left; lia | right; reflexivity]).
      by rewrite session_same.
  - destruct (routed_other so 0 p) as [-> ->]; [done|].
    destruct (routed_other mo 1 p) as [-> ->]; [done|].
    rewrite dispatch_drop by auto. by rewrite session_same.
Qed.

Lemma loop_body_packet (base : gmap string bytes) (input_file : string)
    (so mo : option string) (pre rest sys_out mic_out : bytes) (cnt : counts)
    (p : packet) :
  distinct_paths input_file so mo ->
  base !! input_file = Some (pre ++ encode_packet p ++ rest) ->
  valid_packet p ->
  loop_body (mk_session base input_file (length pre) so mo sys_out mic_out cnt)
  = Continue
      (mk_session base input_file (length (pre ++ encode_packet p)) so mo
         (sys_out ++ routed so 0 p) (mic_out ++ routed mo 1 p)
         {| system := system cnt + counted so 0 p;
            mic := mic cnt + counted mo 1 p |}).
Proof.
  intros Hpaths Hin Hvalid. unfold loop_body.
  rewrite (read_packet_encoded _ pre rest p);
    [| done | simpl; by rewrite session_input | done | done ].
  rewrite length_app. by apply dispatch_session.
Qed.

Lemma loop_body_partial (base : gmap string bytes) (input_file : string)
    (so mo : option string) (pre tail sys_out mic_out : bytes) (cnt : counts) :
  distinct_paths input_file so mo ->
  base !! input_file = Some (pre ++ tail) ->
  partial_packet tail ->
  loop_body (mk_session base input_file (length pre) so mo sys_out mic_out cnt)
  = Break (mk_session base input_file (length (pre ++ tail)) so mo
             sys_out mic_out cnt).
Proof.
  intros Hpaths Hin Htail. unfold loop_body.
  rewrite (read_packet_partial _ pre tail);
    [| done | simpl; by rewrite session_input | done | done ].
  by rewrite length_app.
Qed.

(** ** The whole loop *)

Lemma written_cons (path : option string) (id : Z) (p : packet)
    (ps : list packet) :
  written path id (p :: ps) = routed path id p ++ written path id ps.
Proof. done. Qed.

Lemma tally_cons (path : option string) (id : Z) (p : packet)
    (ps : list packet) :
  tally path id (p :: ps) = counted path id p + tally path id ps.
Proof. done. Qed.

Lemma encode_all_cons (p : packet) (ps : list packet) :
  encode_all (p :: ps) = encode_packet p ++ encode_all ps.
Proof. done. Qed.

Lemma length_encode_packet (p : packet) :
  length (encode_packet p) = (13 + length (pk_payload p))%nat.
Proof. unfold encode_packet. by rewrite length_app, length_encode_header. Qed.

Lemma length_encode_all (ps : list packet) :
  length (encode_all ps) = (13 * length ps + payload_bytes ps)%nat.
Proof.
  unfold payload_bytes.
  induction ps as [|p ps IH]; [done|].
  rewrite encode_all_cons, length_app, length_encode_packet, IH. simpl.
  rewrite length_app. lia.
Qed.

Lemma demux_loop_packets (base : gmap string bytes) (input_file : string)
    (so mo : option string) (tail : bytes) (ps : list packet) :
  distinct_paths input_file so mo ->
  Forall valid_packet ps -> partial_packet tail ->
  forall (fuel : nat) (pre sys_out mic_out : bytes) (cnt : counts),
    base !! input_file = Some (pre ++ encode_all ps ++ tail) ->
    (length ps < fuel)%nat ->
    demux_loop fuel
      (mk_session base input_file (length pre) so mo sys_out mic_out cnt)
    = LoopExit
        (mk_session base input_file (length (pre ++ encode_all ps ++ tail))
           so mo (sys_out ++ written so 0 ps) (mic_out ++ written mo 1 ps)
           {| system := system cnt + tally so 0 ps;
              mic := mic cnt + tally mo 1 ps |}).
Proof.
  intros Hpaths Hvalid Htail.
  induction Hvalid as [|p ps Hp Hps IH]; intros fuel pre sys_out mic_out cnt
    Hin Hfuel; (destruct fuel as [|fuel]; [simpl in Hfuel; lia|]).
  - simpl demux_loop. simpl in Hin.
    rewrite (loop_body_partial base input_file so mo pre tail) by done.
    unfold written, tally. simpl. by rewrite session_same.
  - simpl demux_loop. rewrite encode_all_cons, <- app_assoc in Hin.
    rewrite (loop_body_packet base input_file so mo pre
               (encode_all ps ++ tail) sys_out mic_out cnt p) by done.
    rewrite IH; [| by rewrite <- app_assoc | simpl in Hfuel; lia ].
    rewrite encode_all_cons, !written_cons, !tally_cons. simpl.
    rewrite <- !app_assoc, !Z.add_assoc. done.
Qed.

Lemma iterations_packets (base : gmap string bytes) (input_file : string)
    (so mo : option string) (ps : list packet) :
  distinct_paths input_file so mo ->
  Forall valid_packet ps ->
  forall (pre rest sys_out mic_out : bytes) (cnt : counts),
    base !! input_file = Some (pre ++ encode_all ps ++ rest) ->
    iterations (length ps)
      (mk_session base input_file (length pre) so mo sys_out mic_out cnt)
    = Some
        (mk_session base input_file (length (pre ++ encode_all ps))
           so mo (sys_out ++ written so 0 ps) (mic_out ++ written mo 1 ps)
           {| system := system cnt + tally so 0 ps;
              mic := mic cnt + tally mo 1 ps |}).
Proof.
  intros Hpaths Hvalid.
  induction Hvalid as [|p ps Hp Hps IH]; intros pre rest sys_out mic_out cnt Hin.
  - simpl. unfold written, tally. simpl.
    by rewrite session_same, app_nil_r.
  - simpl iterations. rewrite encode_all_cons, <- app_assoc in Hin.
    rewrite (loop_body_packet base input_file so mo pre
               (encode_all ps ++ rest) sys_out mic_out cnt p) by done.
    rewrite (IH _ rest) by (by rewrite <- app_assoc).
    rewrite encode_all_cons, !written_cons, !tally_cons. simpl.
    rewrite <- !app_assoc, !Z.add_assoc. done.
Qed.

(** ** A whole run on three different files *)

Lemma open_if_given_requested (path : option string) (m : gmap string bytes) :
  open_if_given path m = (sink (requested path) [], put (requested path) [] m).
Proof.
  unfold open_if_given, requested.
  destruct path as [p|]; [|done]. by case_decide.
Qed.

Lemma open_files_session (input_file : string) (so mo : option string)
    (fs0 : gmap string bytes) (content : bytes) :
  distinct_paths input_file (requested so) (requested mo) ->
  fs0 !! input_file = Some content ->
  open_files input_file so mo fs0
  = inr (mk_session fs0 input_file 0 (requested so) (requested mo) [] []
           {| system := 0; mic := 0 |}).
Proof.
  intros Hpaths Hin. unfold open_files, open_rb.
  rewrite !open_if_given_requested.
  by rewrite (session_input fs0 input_file _ _ Hpaths), Hin.
Qed.

Lemma length_packets_le (ps : list packet) (tail : bytes) :
  (length ps <= length (encode_all ps ++ tail))%nat.
Proof. rewrite length_app, length_encode_all. lia. Qed.

Lemma extract_streams_fuel_packets (fuel : nat) (input_file : string)
    (so mo : option string) (fs0 : gmap string bytes) (ps : list packet)
    (tail : bytes) :
  distinct_paths input_file (requested so) (requested mo) ->
  Forall valid_packet ps -> partial_packet tail ->
  fs0 !! input_file = Some (encode_all ps ++ tail) ->
  (length ps < fuel)%nat ->
  extract_streams_fuel fuel input_file so mo fs0
  = Returned PyNone
      (close_files so mo
         (mk_session fs0 input_file (length (encode_all ps ++ tail))
            (requested so) (requested mo)
            (written (requested so) 0 ps) (written (requested mo) 1 ps)
            {| system := tally (requested so) 0 ps;
               mic := tally (requested mo) 1 ps |})).
Proof.
  intros Hpaths Hvalid Htail Hin Hfuel. unfold extract_streams_fuel.
  rewrite (open_files_session _ _ _ _ _ Hpaths Hin).
  by rewrite (demux_loop_packets fs0 input_file _ _ tail ps Hpaths Hvalid
                Htail fuel [] [] [] _ Hin Hfuel).
Qed.

Lemma extract_streams_packets (input_file : string) (so mo : option string)
    (fs0 : gmap string bytes) (ps : list packet) (tail : bytes) :
  distinct_paths input_file (requested so) (requested mo) ->
  Forall valid_packet ps -> partial_packet tail ->
  fs0 !! input_file = Some (encode_all ps ++ tail) ->
  extract_streams input_file so mo fs0
  = Returned PyNone
      (close_files so mo
         (mk_session fs0 input_file (length (encode_all ps ++ tail))
            (requested so) (requested mo)
            (written (requested so) 0 ps) (written (requested mo) 1 ps)
            {| system := tally (requested so) 0 ps;
               mic := tally (requested mo) 1 ps |})).
Proof.
  intros Hpaths Hvalid Htail Hin. unfold extract_streams.
  apply extract_streams_fuel_packets; try done.
  rewrite Hin. simpl. pose proof (length_packets_le ps tail). lia.
Qed.

Lemma written_requested (k : string) (id : Z) (ps : list packet) :
  written (Some k) id ps = stream_payloads id ps
  /\ tally (Some k) id ps = stream_count id ps.
Proof.
  unfold written, tally, stream_payloads, stream_count.
  induction ps as [|p ps [IH1 IH2]]; [done|].
  rewrite filter_cons. simpl. rewrite IH1, IH2.
  case_decide; simpl; [split; [done | lia] | done].
Qed.

Lemma written_omitted (id : Z) (ps : list packet) :
  written None id ps = [] /\ tally None id ps = 0.
Proof.
  unfold written, tally. induction ps as [|p ps [IH1 IH2]]; [done|].
  simpl. by rewrite IH1, IH2.
Qed.

Lemma partial_nil : partial_packet [].
Proof. left. simpl. lia. Qed.

Lemma distinct_given (input_file sp mp : string) :
  sp <> EmptyString -> mp <> EmptyString ->
  input_file <> sp -> input_file <> mp -> sp <> mp ->
  distinct_paths input_file (requested (Some sp)) (requested (Some mp))
  /\ requested (Some sp) = Some sp /\ requested (Some mp) = Some mp.
Proof.
  intros Hs Hm H1 H2 H3. unfold requested.
  rewrite !decide_False by done. repeat split; congruence.
Qed.

(** ** Every file is a sequence of packets and a partial one *)

Lemma byte_of_Z_val (b : byte) (d : Z) : byte_of_Z (byte_val b + 256 * d) = b.
Proof.
  unfold byte_of_Z. pose proof (byte_val_range b) as Hr.
  replace ((byte_val b + 256 * d) mod 256) with (byte_val b).
  2:{ apply (Z.mod_unique _ 256 d); lia. }
  unfold byte_val. by rewrite N2Z.id, Byte.of_to_N.
Qed.

Lemma le_bytes_le_decode (bs : bytes) :
  le_bytes (length bs) (le_decode bs) = bs.
Proof.
  induction bs as [|b bs IH]; [done|].
  cbn [length le_decode le_bytes]. rewrite byte_of_Z_val. f_equal.
  pose proof (byte_val_range b) as Hr.
  replace ((byte_val b + 256 * le_decode bs) / 256) with (le_decode bs); [done|].
  apply (Z.div_unique _ 256 _ (byte_val b)); lia.
Qed.

Lemma le_bytes_le_decode_length (n : nat) (bs : bytes) :
  length bs = n -> le_bytes n (le_decode bs) = bs.
Proof. intros <-. apply le_bytes_le_decode. Qed.

Lemma encode_header_fields (header : bytes) :
  length header = 13%nat ->
  encode_header (le_decode (take 1 header))
    (le_decode (take 8 (drop 1 header)))
    (le_decode (take 4 (drop 9 header))) = header.
Proof.
  intros Hlen. unfold encode_header.
  assert (length (take 1 header) = 1%nat) as H1 by (rewrite length_take; lia).
  assert (length (take 8 (drop 1 header)) = 8%nat) as H2
    by (rewrite length_take, length_drop; lia).
  assert (length (take 4 (drop 9 header)) = 4%nat) as H3
    by (rewrite length_take, length_drop; lia).
  rewrite !le_bytes_le_decode_length by done.
  rewrite (take_ge (drop 9 header)) by (rewrite length_drop; lia).
  replace (drop 9 header) with (drop 8 (drop 1 header))
    by (by rewrite drop_drop).
  rewrite take_drop. apply take_drop.
Qed.

Lemma file_packets (content : bytes) :
  exists (ps : list packet) (tail : bytes),
    content = encode_all ps ++ tail
    /\ Forall valid_packet ps /\ partial_packet tail.
Proof.
  remember (length content) as n eqn:Hn.
  revert content Hn. induction (lt_wf n) as [n _ IH]. intros content Hn.
  destruct (decide (length content < 13)%nat) as [Hshort|Hlong].
  { exists [], content. split; [done|]. split; [done | by left]. }
  set (header := take 13 content).
  assert (length header = 13%nat) as Hlen
    by (unfold header; rewrite length_take; lia).
  pose proof (unpack_BQL_fields header Hlen) as Hun.
  destruct (decide (Z.of_nat (length (drop 13 content))
                    < le_decode (take 4 (drop 9 header)))) as [Hcut|Hfull].
  { exists [], content. split; [done|]. split; [done|]. right. eauto. }
  set (size := Z.to_nat (le_decode (take 4 (drop 9 header)))).
  set (p := {| pk_stream := le_decode (take 1 header);
               pk_time := le_decode (take 8 (drop 1 header));
               pk_payload := take size (drop 13 content) |}).
  pose proof (le_decode_range (take 1 header)) as R1.
  pose proof (le_decode_range (take 8 (drop 1 header))) as R2.
  pose proof (le_decode_range (take 4 (drop 9 header))) as R3.
  rewrite length_take in R1, R2, R3. rewrite length_drop in R2, R3.
  rewrite Hlen in R1, R2, R3.
  change (256 ^ Z.of_nat (1 `min` 13)) with 256 in R1.
  change (256 ^ Z.of_nat (8 `min` (13 - 1))) with (2 ^ 64) in R2.
  change (256 ^ Z.of_nat (4 `min` (13 - 9))) with (2 ^ 32) in R3.
  assert (length (pk_payload p) = size) as Hpay
    by (simpl; rewrite length_take; unfold size; lia).
  assert (encode_packet p = header ++ take size (drop 13 content)) as Henc.
  { unfold encode_packet. rewrite Hpay. unfold size at 1.
    rewrite Z2Nat.id by lia. simpl pk_stream. simpl pk_time.
    by rewrite encode_header_fields. }
  destruct (IH (length (drop (13 + size) content))
              ltac:(rewrite length_drop; lia) _ eq_refl)
    as (ps & tail & Hrest & Hvalid & Htail).
  exists (p :: ps), tail. split; [|split; [|done]].
  - rewrite encode_all_cons, Henc, <- !app_assoc, <- Hrest.
    rewrite <- drop_drop, take_drop. unfold header. by rewrite take_drop.
  - apply List.Forall_cons; [|done].
    unfold valid_packet. rewrite Hpay. simpl pk_stream. simpl pk_time.
    unfold size. lia.
Qed.

(** ** What any iteration does, on any session *)

Lemma unpack_BQL_size (header : bytes) (stream_id timestamp_us packet_size : Z) :
  struct_unpack "<BQL" header = Some [stream_id; timestamp_us; packet_size] ->
  0 <= stream_id < 256 /\ 0 <= timestamp_us < 2 ^ 64
  /\ 0 <= packet_size < 2 ^ 32.
Proof.
  intros Hun. pose proof (unpack_BQL_length _ _ Hun) as Hlen.
  rewrite unpack_BQL_fields in Hun by done. injection Hun as <- <- <-.
  pose proof (le_decode_range (take 1 header)) as R1.
  pose proof (le_decode_range (take 8 (drop 1 header))) as R2.
  pose proof (le_decode_range (take 4 (drop 9 header))) as R3.
  rewrite length_take in R1, R2, R3. rewrite length_drop in R2, R3.
  rewrite Hlen in R1, R2, R3.
  change (256 ^ Z.of_nat (1 `min` 13)) with 256 in R1.
  change (256 ^ Z.of_nat (8 `min` (13 - 1))) with (2 ^ 64) in R2.
  change (256 ^ Z.of_nat (4 `min` (13 - 9))) with (2 ^ 32) in R3.
  done.
Qed.

(** A packet is handed on only when the header and the whole payload were
    read: the input moves on by thirteen bytes and the declared size. *)
Lemma read_packet_got (s s' : session) (stream_id timestamp_us packet_size : Z)
    (audio_data : bytes) :
  read_packet s
  = GotPacket stream_id timestamp_us packet_size audio_data s' ->
  let rest := drop (fpos (f s)) (file_content (f s) (fs s)) in
  fclosed (f s) = false
  /\ struct_unpack "<BQL" (take 13 rest)
     = Some [stream_id; timestamp_us; packet_size]
  /\ audio_data = take (Z.to_nat packet_size) (drop 13 rest)
  /\ Z.of_nat (length audio_data) = packet_size
  /\ s' = set_f {| fname := fname (f s);
                   fpos := fpos (f s) + 13 + Z.to_nat packet_size;
                   fclosed := false |} s.
Proof.
  unfold read_packet, file_read.
  destruct (fclosed (f s)) eqn:Hopen; [done|]. cbn zeta.
  destruct (decide (13 < 0)) as [?|_]; [lia|].
  change (Z.to_nat 13) with 13%nat.
  set (rest := drop (fpos (f s)) (file_content (f s) (fs s))).
  case_decide as Hlen; [done|].
  destruct (struct_unpack "<BQL" (take 13 rest))
    as [[|id [|ts [|size [|]]]]|] eqn:Hun; try done.
  pose proof (unpack_BQL_size _ _ _ _ Hun) as (_ & _ & Hsize).
  pose proof (unpack_BQL_length _ _ Hun) as Hhdr.
  cbn [fclosed fpos fname]. destruct (decide (size < 0)) as [?|_]; [lia|].
  change (file_content _ (fs s)) with (file_content (f s) (fs s)).
  rewrite Hhdr.
  replace (drop (fpos (f s) + 13) (file_content (f s) (fs s)))
    with (drop 13 rest) by (unfold rest; by rewrite drop_drop).
  case_decide as Hpay; [done|].
  intros [= <- <- <- <- <-]. cbn zeta.
  assert (length (take (Z.to_nat size) (drop 13 rest)) = Z.to_nat size)
    as Hgot by (rewrite length_take in *; lia).
  repeat split; try done; [lia|].
  unfold set_f. do 2 f_equal. lia.
Qed.

(** Routing leaves the input where it is, keeps each sink on its path, and
    touches no file but the sinks. *)
Lemma dispatch_continue (stream_id : Z) (audio_data : bytes) (s s' : session) :
  dispatch stream_id audio_data s = Continue s' ->
  f s' = f s
  /\ fname <$> system_file s' = fname <$> system_file s
  /\ fname <$> mic_file s' = fname <$> mic_file s
  /\ (forall k, fname <$> system_file s <> Some k ->
                fname <$> mic_file s <> Some k -> fs s' !! k = fs s !! k).
Proof.
  unfold dispatch, file_write.
  destruct (stream_id =? 0), (system_file s) as [sf|] eqn:Hsf;
    try destruct (fclosed sf);
    try destruct (stream_id =? 1);
    try destruct (mic_file s) as [mf|] eqn:Hmf;
    try destruct (fclosed mf);
    try done; intros [= <-]; simpl; rewrite ?Hsf, ?Hmf;
    repeat split; try done; intros k Hk1 Hk2;
    apply lookup_insert_ne; simpl in *; congruence.
Qed.

Lemma loop_body_continue (s s' : session) :
  loop_body s = Continue s' ->
  exists packet_size,
    0 <= packet_size
    /\ fname (f s') = fname (f s) /\ fclosed (f s') = false
    /\ fpos (f s') = (fpos (f s) + 13 + Z.to_nat packet_size)%nat
    /\ (fpos (f s') <= length (file_content (f s) (fs s)))%nat
    /\ fname <$> system_file s' = fname <$> system_file s
    /\ fname <$> mic_file s' = fname <$> mic_file s
    /\ (forall k, fname <$> system_file s <> Some k ->
                  fname <$> mic_file s <> Some k -> fs s' !! k = fs s !! k).
Proof.
  unfold loop_body.
  destruct (read_packet s) as [|id ts size data s1|] eqn:Hread; try done.
  intros Hd.
  destruct (read_packet_got _ _ _ _ _ _ Hread)
    as (Hopen & Hun & Hdata & Hlen & ->).
  destruct (dispatch_continue _ _ _ _ Hd) as (Hf & Hs & Hm & Hframe).
  pose proof (unpack_BQL_size _ _ _ _ Hun) as (_ & _ & Hsize).
  pose proof (unpack_BQL_length _ _ Hun) as Hhdr.
  exists size. rewrite Hf, Hs, Hm. simpl in *.
  repeat split; try done; [lia|].
  rewrite Hdata in Hlen. rewrite !length_take, !length_drop in *. lia.
Qed.

(** ** The loop ends *)

Lemma loop_body_apart (s s' : session) :
  input_apart s -> loop_body s = Continue s' ->
  input_apart s' /\ (remaining s' + 13 <= remaining s)%nat.
Proof.
  intros [Ha1 Ha2] Hstep.
  destruct (loop_body_continue _ _ Hstep)
    as (size & Hsize & Hname & Hopen & Hpos & Hle & Hs & Hm & Hframe).
  assert (file_content (f s') (fs s') = file_content (f s) (fs s)) as Hc
    by (unfold file_content; rewrite Hname, Hframe; done).
  split.
  - unfold input_apart. by rewrite Hs, Hm, Hname.
  - unfold remaining. rewrite Hc. lia.
Qed.

Lemma loop_body_short (s : session) :
  (remaining s < 13)%nat -> forall s', loop_body s <> Continue s'.
Proof.
  intros Hshort s' Hstep.
  destruct (loop_body_continue _ _ Hstep)
    as (size & Hsize & Hname & Hopen & Hpos & Hle & _).
  unfold remaining in Hshort. lia.
Qed.

Lemma demux_loop_ends (fuel : nat) :
  forall s, input_apart s -> (remaining s < 13 * fuel)%nat ->
            demux_loop fuel s <> OutOfFuel.
Proof.
  induction fuel as [|fuel IH]; intros s Hapart Hfuel; [lia|].
  simpl. destruct (loop_body s) as [s'| |] eqn:Hstep; try done.
  destruct (loop_body_apart _ _ Hapart Hstep) as [Hapart' Hrem].
  apply IH; [done | lia].
Qed.

Lemma demux_loop_short (fuel : nat) (s : session) :
  (remaining s < 13)%nat -> demux_loop (S fuel) s <> OutOfFuel.
Proof.
  intros Hshort. simpl.
  destruct (loop_body s) as [s'| |] eqn:Hstep; try done.
  by destruct (loop_body_short s Hshort s').
Qed.

(** More fuel than needed changes nothing. *)
Lemma demux_loop_more (n : nat) :
  forall (m : nat) (s : session),
    demux_loop n s <> OutOfFuel -> (n <= m)%nat ->
    demux_loop m s = demux_loop n s.
Proof.
  induction n as [|n IH]; intros m s Hn Hle; [done|].
  destruct m as [|m]; [lia|]. simpl in *.
  destruct (loop_body s); try done. apply IH; [done | lia].
Qed.

Lemma demux_loop_agree (n m : nat) (s : session) :
  demux_loop n s <> OutOfFuel -> demux_loop m s <> OutOfFuel ->
  demux_loop m s = demux_loop n s.
Proof.
  intros Hn Hm. destruct (decide (n <= m)%nat).
  - by apply demux_loop_more.
  - symmetry. apply demux_loop_more; [done | lia].
Qed.

(** The loop keeps each sink on its path and touches no other file. *)
Lemma demux_loop_frame (fuel : nat) :
  forall s s',
    demux_loop fuel s = LoopExit s' ->
    fname <$> system_file s' = fname <$> system_file s
    /\ fname <$> mic_file s' = fname <$> mic_file s
    /\ (forall k, fname <$> system_file s <> Some k ->
                  fname <$> mic_file s <> Some k -> fs s' !! k = fs s !! k).
Proof.
  induction fuel as [|fuel IH]; intros s s'; [done|]. simpl.
  destruct (loop_body s) as [s1|s1|] eqn:Hstep; try done.
  - intros Hrun. destruct (IH _ _ Hrun) as (Hs & Hm & Hframe).
    destruct (loop_body_continue _ _ Hstep)
      as (size & _ & _ & _ & _ & _ & Hs1 & Hm1 & Hframe1).
    rewrite Hs, Hm, Hs1, Hm1. repeat split; try done.
    intros k Hk1 Hk2. rewrite Hframe by (by rewrite ?Hs1, ?Hm1).
    by apply Hframe1.
  - intros [= <-]. revert Hstep. unfold loop_body.
    destruct (read_packet s) as [s2|id ts size data s2|] eqn:Hread; try done.
    + intros [= <-]. revert Hread. unfold read_packet.
      repeat case_match; try done; by intros [= <-].
    + unfold dispatch. repeat case_match; done.
Qed.

(** ** The session a run starts from *)

Lemma open_files_inv (input_file : string) (so mo : option string)
    (fs0 : gmap string bytes) (s0 : session) :
  open_files input_file so mo fs0 = inr s0 ->
  s0 = mk_session fs0 input_file 0 (requested so) (requested mo) [] []
         {| system := 0; mic := 0 |}
  /\ is_Some (fs s0 !! input_file).
Proof.
  unfold open_files, open_rb. rewrite !open_if_given_requested.
  destruct (put (requested mo) [] (put (requested so) [] fs0) !! input_file)
    eqn:Hin; [|done].
  intros [= <-]. split; [done|]. simpl. rewrite Hin. eauto.
Qed.

Lemma sink_name (path : option string) (b : bytes) :
  fname <$> sink path b = path.
Proof. by destruct path. Qed.

Lemma put_lookup_same (path : option string) (b : bytes)
    (m : gmap string bytes) (k : string) :
  path = Some k -> put path b m !! k = Some b.
Proof. intros ->. apply put_lookup_eq. Qed.

Lemma open_files_fuel (input_file : string) (so mo : option string)
    (fs0 : gmap string bytes) (s0 : session) (fuel : nat) :
  open_files input_file so mo fs0 = inr s0 ->
  (length (default [] (fs0 !! input_file)) < 13 * fuel)%nat ->
  demux_loop fuel s0 <> OutOfFuel.
Proof.
  intros Hopen Hfuel. destruct (open_files_inv _ _ _ _ _ Hopen) as [-> _].
  destruct fuel as [|fuel]; [lia|].
  destruct (decide (requested mo = Some input_file)) as [Hm|Hm].
  { apply demux_loop_short. unfold remaining, file_content. simpl.
    rewrite (put_lookup_same _ _ _ _ Hm). simpl. lia. }
  destruct (decide (requested so = Some input_file)) as [Hs|Hs].
  { apply demux_loop_short. unfold remaining, file_content. simpl.
    rewrite put_lookup_ne by done.
    rewrite (put_lookup_same _ _ _ _ Hs). simpl. lia. }
  apply demux_loop_ends.
  - unfold input_apart. simpl. by rewrite !sink_name.
  - unfold remaining, file_content. simpl.
    rewrite !put_lookup_ne by done. lia.
Qed.

(** ** The sessions of a run, iteration by iteration *)

Lemma put_lookup (path : option string) (b : bytes) (m : gmap string bytes)
    (k : string) :
  put path b m !! k = if decide (path = Some k) then Some b else m !! k.
Proof.
  case_decide as Hk; [by apply put_lookup_same | by apply put_lookup_ne].
Qed.

Lemma encode_all_app (ps qs : list packet) :
  encode_all (ps ++ qs) = encode_all ps ++ encode_all qs.
Proof. unfold encode_all. by rewrite map_app, concat_app. Qed.

Lemma written_app (path : option string) (id : Z) (ps qs : list packet) :
  written path id (ps ++ qs) = written path id ps ++ written path id qs.
Proof. unfold written. by rewrite map_app, concat_app. Qed.

Lemma tally_app (path : option string) (id : Z) (ps qs : list packet) :
  tally path id (ps ++ qs) = tally path id ps + tally path id qs.
Proof.
  unfold tally. induction ps as [|p ps IH]; simpl; [done|]. rewrite IH. lia.
Qed.

(** The session after the first [k] packets. *)
Lemma iterations_prefix (fs0 : gmap string bytes) (input_file : string)
    (so mo : option string) (ps : list packet) (tail : bytes) (k : nat) :
  distinct_paths input_file so mo ->
  Forall valid_packet ps ->
  fs0 !! input_file = Some (encode_all ps ++ tail) ->
  (k <= length ps)%nat ->
  iterations k
    (mk_session fs0 input_file 0 so mo [] [] {| system := 0; mic := 0 |})
  = Some
      (mk_session fs0 input_file (length (encode_all (take k ps))) so mo
         (written so 0 (take k ps)) (written mo 1 (take k ps))
         {| system := tally so 0 (take k ps);
            mic := tally mo 1 (take k ps) |}).
Proof.
  intros Hpaths Hvalid Hin Hk.
  rewrite <- (take_drop k ps), encode_all_app, <- app_assoc in Hin.
  assert (Forall valid_packet (take k ps)) as Hvalid' by (by apply Forall_take).
  pose proof (iterations_packets fs0 input_file so mo (take k ps) Hpaths
                Hvalid' [] _ [] [] {| system := 0; mic := 0 |} Hin) as Hrun.
  rewrite length_take, Nat.min_l in Hrun by done. exact Hrun.
Qed.

(** The next iteration, at packet number [k]. *)
Lemma iteration_at (fs0 : gmap string bytes) (input_file : string)
    (so mo : option string) (ps : list packet) (tail : bytes) (k : nat)
    (p : packet) :
  distinct_paths input_file so mo ->
  Forall valid_packet ps ->
  fs0 !! input_file = Some (encode_all ps ++ tail) ->
  ps !! k = Some p ->
  loop_body
    (mk_session fs0 input_file (length (encode_all (take k ps))) so mo
       (written so 0 (take k ps)) (written mo 1 (take k ps))
       {| system := tally so 0 (take k ps);
          mic := tally mo 1 (take k ps) |})
  = Continue
      (mk_session fs0 input_file
         (length (encode_all (take k ps)) + length (encode_packet p)) so mo
         (written so 0 (take k ps) ++ routed so 0 p)
         (written mo 1 (take k ps) ++ routed mo 1 p)
         {| system := tally so 0 (take k ps) + counted so 0 p;
            mic := tally mo 1 (take k ps) + counted mo 1 p |}).
Proof.
  intros Hpaths Hvalid Hin Hp.
  rewrite <- (take_drop_middle ps k p Hp) in Hin.
  rewrite encode_all_app, encode_all_cons, <- !app_assoc in Hin.
  rewrite (loop_body_packet fs0 input_file so mo (encode_all (take k ps))
             (encode_all (drop (S k) ps) ++ tail) _ _ _ p Hpaths Hin).
  - by rewrite length_app.
  - rewrite Forall_lookup in Hvalid. by apply (Hvalid k).
Qed.

(** ** Every payload byte goes to one sink or is dropped *)

Lemma packet_balance (so mo : option string) (p : packet) :
  (length (routed so 0 p) + length (routed mo 1 p)
   + length (dropped so mo p) = length (pk_payload p))%nat.
Proof.
  unfold routed, dropped, reaches_sink.
  destruct (Z.eqb_spec (pk_stream p) 0) as [E0|E0],
           (Z.eqb_spec (pk_stream p) 1) as [E1|E1],
           so as [sp|], mo as [mp|];
    repeat case_decide; simpl; lia.
Qed.

Lemma packets_balance (so mo : option string) (ps : list packet) :
  (length (written so 0 ps) + length (written mo 1 ps)
   + dropped_bytes so mo ps = payload_bytes ps)%nat.
Proof.
  unfold dropped_bytes, payload_bytes.
  induction ps as [|p ps IH]; [done|].
  rewrite !written_cons. simpl. rewrite !length_app.
  pose proof (packet_balance so mo p). lia.
Qed.

Lemma sink_bytes_system (fs0 : gmap string bytes) (input_file : string)
    (so mo : option string) (sys_out mic_out : bytes) :
  distinct_paths input_file so mo ->
  sink_bytes (sink so sys_out) (put mo mic_out (put so sys_out fs0))
  = match so with Some _ => length sys_out | None => 0%nat end.
Proof.
  intros Hpaths. destruct so as [sp|]; [|done].
  unfold sink, sink_bytes, file_content. cbn [fname].
  by rewrite (session_system fs0 input_file (Some sp) mo Hpaths sp).
Qed.

Lemma sink_bytes_mic (fs0 : gmap string bytes) (so mo : option string)
    (sys_out mic_out : bytes) :
  sink_bytes (sink mo mic_out) (put mo mic_out (put so sys_out fs0))
  = match mo with Some _ => length mic_out | None => 0%nat end.
Proof.
  destruct mo as [mp|]; [|done].
  unfold sink, sink_bytes, file_content. cbn [fname].
  by rewrite put_lookup_eq.
Qed.

Lemma length_written (path : option string) (id : Z) (ps : list packet) :
  match path with Some _ => length (written path id ps) | None => 0%nat end
  = length (written path id ps).
Proof.
  destruct path; [done|]. by destruct (written_omitted id ps) as [-> _].
Qed.

(** * The claims *)

Lemma scenario_valid : Forall valid_packet scenario.
Proof.
  unfold scenario.
  repeat (apply List.Forall_cons; [unfold valid_packet; simpl; lia|]).
  apply List.Forall_nil.
Defined.

(** C1. Round trip: when the input file is a sequence of complete packets
    and both output paths are given (three different files), the system
    output holds the payloads of the stream-0 packets in file order, the
    microphone output those of the stream-1 packets, and the counters hold
    the numbers of such packets.  This holds for every interleaving, and
    whatever other stream identifiers occur.  On the scenario of the
    specification the outputs are "AAAACC" (2 packets) and "BBB" (1
    packet): see [round_trip_scenario]. *)
Theorem round_trip (input_file sp mp : string) (fs0 : gmap string bytes)
    (ps : list packet) :
  sp <> EmptyString -> mp <> EmptyString ->
  input_file <> sp -> input_file <> mp -> sp <> mp ->
  Forall valid_packet ps ->
  fs0 !! input_file = Some (encode_all ps) ->
  exists r,
    extract_streams input_file (Some sp) (Some mp) fs0 = Returned PyNone r
    /\ out_fs r !! sp = Some (stream_payloads 0 ps)
    /\ out_fs r !! mp = Some (stream_payloads 1 ps)
    /\ out_count r
       = Some {| system := stream_count 0 ps; mic := stream_count 1 ps |}.
Proof.
  intros Hs Hm H1 H2 H3 Hvalid Hin.
  destruct (distinct_given input_file sp mp Hs Hm H1 H2 H3)
    as (Hpaths & Hrs & Hrm).
  rewrite <- (app_nil_r (encode_all ps)) in Hin.
  eexists. split.
  - apply (extract_streams_packets _ _ _ _ ps [] Hpaths Hvalid partial_nil Hin).
  - rewrite Hrs, Hrm in *.
    cbn [close_files mk_session out_fs out_count fs packet_count].
    destruct (written_requested sp 0 ps) as [-> ->].
    destruct (written_requested mp 1 ps) as [-> ->].
    split; [|split; [|done]].
    + by apply (session_system fs0 input_file (Some sp) (Some mp) Hpaths).
    + by apply (session_mic fs0 input_file (Some sp) (Some mp) Hpaths).
Qed.

Lemma round_trip_scenario :
  exists r,
    extract_streams "capture.bin" (Some "system.pcm"%string)
      (Some "mic.pcm"%string) scenario_fs = Returned PyNone r
    /\ out_fs r !! "system.pcm"%string = Some (bytes_of "AAAACC")
    /\ out_fs r !! "mic.pcm"%string = Some (bytes_of "BBB")
    /\ out_count r = Some {| system := 2; mic := 1 |}.
Proof.
  apply (round_trip "capture.bin" "system.pcm" "mic.pcm" scenario_fs scenario);
    try discriminate.
  - exact scenario_valid.
  - reflexivity.
Defined.

Lemma scenario_paths :
  distinct_paths "capture.bin" (requested (Some "system.pcm"%string))
    (requested (Some "mic.pcm"%string)).
Proof.
  unfold distinct_paths. change (requested (Some "system.pcm"%string))
    with (Some "system.pcm"%string).
  change (requested (Some "mic.pcm"%string)) with (Some "mic.pcm"%string).
  repeat split; try discriminate. intros p [= <-]. discriminate.
Defined.

(** C2. Truncation: when the file ends, after its last complete packet,
    with fewer than thirteen bytes (none included) or with a header whose
    declared size exceeds the bytes that follow it, the run returns
    normally, and what it leaves is what the run on the same file without
    that partial packet leaves: the same sink files (so no byte of the
    partial payload is written), the same counters and the same report. *)
Theorem truncation_tolerated (input_file : string) (so mo : option string)
    (fs0 : gmap string bytes) (ps : list packet) (tail : bytes) :
  distinct_paths input_file (requested so) (requested mo) ->
  Forall valid_packet ps ->
  partial_packet tail ->
  fs0 !! input_file = Some (encode_all ps ++ tail) ->
  exists r r',
    extract_streams input_file so mo fs0 = Returned PyNone r
    /\ extract_streams input_file so mo (<[input_file := encode_all ps]> fs0)
       = Returned PyNone r'
    /\ (forall k, k <> input_file -> out_fs r !! k = out_fs r' !! k)
    /\ out_system r = out_system r' /\ out_mic r = out_mic r'
    /\ out_count r = out_count r' /\ out_stdout r = out_stdout r'.
Proof.
  intros Hpaths Hvalid Htail Hin.
  assert (<[input_file := encode_all ps]> fs0 !! input_file
          = Some (encode_all ps ++ [])) as Hin'
    by (by rewrite app_nil_r, lookup_insert_eq).
  eexists. eexists. split; [|split].
  - apply (extract_streams_packets _ _ _ _ ps tail Hpaths Hvalid Htail Hin).
  - apply (extract_streams_packets _ _ _ _ ps [] Hpaths Hvalid partial_nil Hin').
  - cbn [close_files mk_session out_fs out_system out_mic out_count out_stdout
           fs system_file mic_file packet_count].
    repeat split; try done.
    intros k Hk. rewrite !put_lookup.
    repeat case_decide; try done. by rewrite lookup_insert_ne.
Qed.

Lemma truncation_tolerated_scenario :
  exists r r',
    extract_streams "capture.bin" (Some "system.pcm"%string)
      (Some "mic.pcm"%string) truncated_fs = Returned PyNone r
    /\ extract_streams "capture.bin" (Some "system.pcm"%string)
         (Some "mic.pcm"%string)
         (<["capture.bin"%string := encode_all scenario]> truncated_fs)
       = Returned PyNone r'
    /\ (forall k, k <> "capture.bin"%string -> out_fs r !! k = out_fs r' !! k)
    /\ out_system r = out_system r' /\ out_mic r = out_mic r'
    /\ out_count r = out_count r' /\ out_stdout r = out_stdout r'.
Proof.
  apply (truncation_tolerated "capture.bin" (Some "system.pcm"%string)
           (Some "mic.pcm"%string) truncated_fs scenario
           (take 5 (encode_header 0 4000 2))).
  - exact scenario_paths.
  - exact scenario_valid.
  - left. simpl. lia.
  - reflexivity.
Defined.

(** C3. Byte-count conservation: every input file is a sequence of complete
    packets followed by a partial one; after each iteration of the loop, and
    at the end of the run, the size of the system output plus the size of
    the microphone output plus the payload bytes of the packets that reached
    no sink (other stream identifier, or sink not asked for) is the number
    of payload bytes of the complete packets read so far. *)
Theorem bytes_conserved (input_file : string) (so mo : option string)
    (fs0 : gmap string bytes) (content : bytes) :
  distinct_paths input_file (requested so) (requested mo) ->
  fs0 !! input_file = Some content ->
  exists (ps : list packet) (tail : bytes) (s0 : session) (r : final),
    content = encode_all ps ++ tail
    /\ Forall valid_packet ps /\ partial_packet tail
    /\ open_files input_file so mo fs0 = inr s0
    /\ (forall k, (k <= length ps)%nat ->
          exists s,
            iterations k s0 = Some s
            /\ (sink_bytes (system_file s) (fs s)
                + sink_bytes (mic_file s) (fs s)
                + dropped_bytes (requested so) (requested mo) (take k ps)
                = payload_bytes (take k ps))%nat)
    /\ extract_streams input_file so mo fs0 = Returned PyNone r
    /\ (sink_bytes (out_system r) (out_fs r)
        + sink_bytes (out_mic r) (out_fs r)
        + dropped_bytes (requested so) (requested mo) ps
        = payload_bytes ps)%nat.
Proof.
  intros Hpaths Hin.
  destruct (file_packets content) as (ps & tail & -> & Hvalid & Htail).
  exists ps, tail. eexists. eexists.
  split; [done|]. split; [done|]. split; [done|].
  split; [by apply (open_files_session _ _ _ _ _ Hpaths Hin)|].
  split; [|split].
  - intros k Hk. eexists. split.
    + by apply (iterations_prefix fs0 input_file _ _ ps tail k Hpaths).
    + cbn [mk_session fs system_file mic_file].
      rewrite (sink_bytes_system fs0 input_file _ _ _ _ Hpaths).
      rewrite sink_bytes_mic, !length_written. apply packets_balance.
  - by apply (extract_streams_packets _ _ _ _ ps tail Hpaths).
  - cbn [close_files mk_session out_fs out_system out_mic fs system_file
           mic_file].
    assert (forall o m, sink_bytes (file_close <$> o) m = sink_bytes o m)
      as Hclosed by (by intros [fl|] m).
    rewrite !Hclosed.
    rewrite (sink_bytes_system fs0 input_file _ _ _ _ Hpaths).
    rewrite sink_bytes_mic, !length_written. apply packets_balance.
Qed.

Lemma bytes_conserved_scenario :
  exists (ps : list packet) (tail : bytes) (s0 : session) (r : final),
    scenario_input = encode_all ps ++ tail
    /\ Forall valid_packet ps /\ partial_packet tail
    /\ open_files "capture.bin" (Some "system.pcm"%string) None scenario_fs
       = inr s0
    /\ (forall k, (k <= length ps)%nat ->
          exists s,
            iterations k s0 = Some s
            /\ (sink_bytes (system_file s) (fs s)
                + sink_bytes (mic_file s) (fs s)
                + dropped_bytes (Some "system.pcm"%string) None (take k ps)
                = payload_bytes (take k ps))%nat)
    /\ extract_streams "capture.bin" (Some "system.pcm"%string) None
         scenario_fs = Returned PyNone r
    /\ (sink_bytes (out_system r) (out_fs r)
        + sink_bytes (out_mic r) (out_fs r)
        + dropped_bytes (Some "system.pcm"%string) None ps
        = payload_bytes ps)%nat.
Proof.
  apply (bytes_conserved "capture.bin" (Some "system.pcm"%string) None
           scenario_fs scenario_input).
  - repeat split; try discriminate.
  - reflexivity.
Defined.

Lemma routed_none (path : option string) (id : Z) (p : packet) :
  pk_stream p <> id \/ path = None ->
  routed path id p = [] /\ counted path id p = 0.
Proof.
  intros [Hne | ->]; [by apply routed_other | done].
Qed.

Lemma distinct_paths_omit (input_file : string) (so mo : option string) :
  distinct_paths input_file so mo ->
  distinct_paths input_file so None /\ distinct_paths input_file None mo.
Proof.
  intros (H1 & H2 & H3). repeat split; try done.
Qed.

(** C4. Silent drop and selective extraction: a complete packet whose
    stream identifier is neither 0 nor 1, or whose sink was not asked for,
    makes an iteration that only moves the input past the header and the
    payload: no file changes, no counter changes, nothing is raised, and
    the loop goes on.  Leaving out one output path leaves the other
    stream's file, sink and counter as they are with both paths, opens no
    sink for the stream left out, counts nothing for it and writes nothing
    to its path. *)
Theorem unrouted_dropped (input_file : string) (so mo : option string)
    (fs0 : gmap string bytes) (ps : list packet) (tail : bytes) :
  distinct_paths input_file (requested so) (requested mo) ->
  Forall valid_packet ps ->
  partial_packet tail ->
  fs0 !! input_file = Some (encode_all ps ++ tail) ->
  (forall k p,
     ps !! k = Some p ->
     pk_stream p <> 0 \/ requested so = None ->
     pk_stream p <> 1 \/ requested mo = None ->
     exists s0 s,
       open_files input_file so mo fs0 = inr s0
       /\ iterations k s0 = Some s
       /\ loop_body s
          = Continue
              (set_f {| fname := input_file;
                        fpos := fpos (f s) + 13 + length (pk_payload p);
                        fclosed := false |} s))
  /\ exists r r1 r2,
       extract_streams input_file so mo fs0 = Returned PyNone r
       /\ extract_streams input_file so None fs0 = Returned PyNone r1
       /\ extract_streams input_file None mo fs0 = Returned PyNone r2
       /\ (forall sp, requested so = Some sp ->
             out_fs r1 !! sp = out_fs r !! sp)
       /\ out_system r1 = out_system r
       /\ system <$> out_count r1 = system <$> out_count r
       /\ out_mic r1 = None /\ mic <$> out_count r1 = Some 0
       /\ (forall mp, requested mo = Some mp -> out_fs r1 !! mp = fs0 !! mp)
       /\ (forall mp, requested mo = Some mp ->
             out_fs r2 !! mp = out_fs r !! mp)
       /\ out_mic r2 = out_mic r
       /\ mic <$> out_count r2 = mic <$> out_count r
       /\ out_system r2 = None /\ system <$> out_count r2 = Some 0
       /\ (forall sp, requested so = Some sp -> out_fs r2 !! sp = fs0 !! sp).
Proof.
  intros Hpaths Hvalid Htail Hin. split.
  - intros k p Hp Hsys Hmic. eexists. eexists.
    split; [by apply (open_files_session _ _ _ _ _ Hpaths Hin)|].
    split.
    + apply (iterations_prefix fs0 input_file _ _ ps tail k Hpaths Hvalid Hin).
      apply lookup_lt_Some in Hp. lia.
    + rewrite (iteration_at fs0 input_file _ _ ps tail k p Hpaths Hvalid Hin Hp).
      destruct (routed_none _ 0 p Hsys) as [-> ->].
      destruct (routed_none _ 1 p Hmic) as [-> ->].
      rewrite !app_nil_r, !Z.add_0_r. unfold set_f, mk_session.
      cbn [fs f system_file mic_file packet_count fpos].
      rewrite length_encode_packet. do 3 f_equal. lia.
  - destruct (distinct_paths_omit _ _ _ Hpaths) as [Hp1 Hp2].
    eexists. eexists. eexists.
    split; [by apply (extract_streams_packets _ _ _ _ ps tail Hpaths)|].
    split; [by apply (extract_streams_packets _ so None _ ps tail Hp1)|].
    split; [by apply (extract_streams_packets _ None mo _ ps tail Hp2)|].
    cbn [close_files mk_session out_fs out_system out_mic out_count
           fs system_file mic_file packet_count requested put sink
           fmap option_fmap option_map system mic].
    destruct (written_omitted 0 ps) as [_ ->].
    destruct (written_omitted 1 ps) as [_ ->].
    destruct Hpaths as (Hi1 & Hi2 & Hd).
    repeat split; try done.
    + intros sp Hsp. rewrite (put_lookup_ne (requested mo)) by (by apply Hd).
      done.
    + intros mp Hmp. apply put_lookup_ne. intros Hsp. by apply (Hd mp).
    + intros mp Hmp. by rewrite !(put_lookup_same _ _ _ _ Hmp).
    + intros sp Hsp. apply put_lookup_ne. intros Hmp. by apply (Hd sp).
Qed.

Lemma unrouted_dropped_scenario :
  (forall k p,
     scenario !! k = Some p ->
     pk_stream p <> 0 \/ requested (Some "system.pcm"%string) = None ->
     pk_stream p <> 1 \/ requested None = None ->
     exists s0 s,
       open_files "capture.bin" (Some "system.pcm"%string) None scenario_fs
       = inr s0
       /\ iterations k s0 = Some s
       /\ loop_body s
          = Continue
              (set_f {| fname := "capture.bin";
                        fpos := fpos (f s) + 13 + length (pk_payload p);
                        fclosed := false |} s))
  /\ exists r r1 r2,
       extract_streams "capture.bin" (Some "system.pcm"%string) None
         scenario_fs = Returned PyNone r
       /\ extract_streams "capture.bin" (Some "system.pcm"%string) None
            scenario_fs = Returned PyNone r1
       /\ extract_streams "capture.bin" None None scenario_fs
          = Returned PyNone r2
       /\ (forall sp, requested (Some "system.pcm"%string) = Some sp ->
             out_fs r1 !! sp = out_fs r !! sp)
       /\ out_system r1 = out_system r
       /\ system <$> out_count r1 = system <$> out_count r
       /\ out_mic r1 = None /\ mic <$> out_count r1 = Some 0
       /\ (forall mp, requested None = Some mp ->
             out_fs r1 !! mp = scenario_fs !! mp)
       /\ (forall mp, requested None = Some mp ->
             out_fs r2 !! mp = out_fs r !! mp)
       /\ out_mic r2 = out_mic r
       /\ mic <$> out_count r2 = mic <$> out_count r
       /\ out_system r2 = None /\ system <$> out_count r2 = Some 0
       /\ (forall sp, requested (Some "system.pcm"%string) = Some sp ->
             out_fs r2 !! sp = scenario_fs !! sp).
Proof.
  apply (unrouted_dropped "capture.bin" (Some "system.pcm"%string) None
           scenario_fs scenario []).
  - repeat split; try discriminate.
  - exact scenario_valid.
  - exact partial_nil.
  - reflexivity.
Defined.

(** C5. Header layout: of the thirteen bytes of a header, byte 0 is the
    unsigned stream identifier, bytes 1 to 8 are the unsigned timestamp,
    least significant byte first, and bytes 9 to 12 are the unsigned
    packet size, least significant byte first; the payload is the
    [packet_size] bytes that follow the header, and after reading it the
    input stands right behind it. *)
Theorem header_layout (s : session) (pre payload rest : bytes)
    (b0 b1 b2 b3 b4 b5 b6 b7 b8 b9 b10 b11 b12 : byte)
    (stream_id timestamp_us packet_size : Z) :
  stream_id = byte_val b0 ->
  timestamp_us
  = byte_val b1 + 2 ^ 8 * byte_val b2 + 2 ^ 16 * byte_val b3
    + 2 ^ 24 * byte_val b4 + 2 ^ 32 * byte_val b5 + 2 ^ 40 * byte_val b6
    + 2 ^ 48 * byte_val b7 + 2 ^ 56 * byte_val b8 ->
  packet_size
  = byte_val b9 + 2 ^ 8 * byte_val b10 + 2 ^ 16 * byte_val b11
    + 2 ^ 24 * byte_val b12 ->
  fclosed (f s) = false ->
  fs s !! fname (f s)
  = Some (pre ++ [b0; b1; b2; b3; b4; b5; b6; b7; b8; b9; b10; b11; b12]
              ++ payload ++ rest) ->
  fpos (f s) = length pre ->
  Z.of_nat (length payload) = packet_size ->
  struct_calcsize "<BQL" = Some 13%nat
  /\ struct_unpack "<BQL" [b0; b1; b2; b3; b4; b5; b6; b7; b8; b9; b10; b11; b12]
     = Some [stream_id; timestamp_us; packet_size]
  /\ 0 <= stream_id < 2 ^ 8 /\ 0 <= timestamp_us < 2 ^ 64
  /\ 0 <= packet_size < 2 ^ 32
  /\ read_packet s
     = GotPacket stream_id timestamp_us packet_size payload
         (set_f {| fname := fname (f s);
                   fpos := length pre + 13 + Z.to_nat packet_size;
                   fclosed := false |} s).
Proof.
  intros Hid Hts Hsize Hopen Hin Hpos Hlen.
  remember [b0; b1; b2; b3; b4; b5; b6; b7; b8; b9; b10; b11; b12]
    as header eqn:Hhdr.
  assert (length header = 13%nat) as H13 by (by subst header).
  assert (le_decode (take 1 header) = stream_id) as H1
    by (subst; cbn [take drop le_decode]; lia).
  assert (le_decode (take 8 (drop 1 header)) = timestamp_us) as H2
    by (subst; cbn [take drop le_decode]; lia).
  assert (le_decode (take 4 (drop 9 header)) = packet_size) as H3
    by (subst; cbn [take drop le_decode]; lia).
  assert (struct_unpack "<BQL" header
          = Some [stream_id; timestamp_us; packet_size]) as Hun
    by (by rewrite unpack_BQL_fields, H1, H2, H3).
  split; [done|]. split; [done|].
  pose proof (unpack_BQL_size _ _ _ _ Hun) as (R1 & R2 & R3).
  split; [done|]. split; [done|]. split; [done|].
  rewrite (read_packet_complete s pre header payload rest Hopen Hin Hpos H13)
    by (by rewrite H3).
  by rewrite H1, H2, Hlen, <- Hlen, Nat2Z.id.
Qed.

Lemma header_layout_scenario :
  struct_calcsize "<BQL" = Some 13%nat
  /\ struct_unpack "<BQL"
       [x02; xe8; x03; x00; x00; x00; x00; x00; x00; x02; x00; x00; x00]
     = Some [2; 1000; 2]
  /\ 0 <= 2 < 2 ^ 8 /\ 0 <= 1000 < 2 ^ 64 /\ 0 <= 2 < 2 ^ 32
  /\ read_packet
       {| fs := {[ "capture.bin"%string :=
                     [x02; xe8; x03; x00; x00; x00; x00; x00; x00; x02; x00;
                      x00; x00; x41; x42; x43] ]};
          f := {| fname := "capture.bin"; fpos := 0; fclosed := false |};
          system_file := None; mic_file := None;
          packet_count := {| system := 0; mic := 0 |} |}
     = GotPacket 2 1000 2 [x41; x42]
         (set_f {| fname := "capture.bin"; fpos := 15; fclosed := false |}
            {| fs := {[ "capture.bin"%string :=
                          [x02; xe8; x03; x00; x00; x00; x00; x00; x00; x02;
                           x00; x00; x00; x41; x42; x43] ]};
               f := {| fname := "capture.bin"; fpos := 0; fclosed := false |};
               system_file := None; mic_file := None;
               packet_count := {| system := 0; mic := 0 |} |}).
Proof.
  apply (header_layout
           {| fs := {[ "capture.bin"%string :=
                         [x02; xe8; x03; x00; x00; x00; x00; x00; x00; x02;
                          x00; x00; x00; x41; x42; x43] ]};
              f := {| fname := "capture.bin"; fpos := 0; fclosed := false |};
              system_file := None; mic_file := None;
              packet_count := {| system := 0; mic := 0 |} |}
           [] [x41; x42] [x43]
           x02 xe8 x03 x00 x00 x00 x00 x00 x00 x02 x00 x00 x00 2 1000 2);
    reflexivity.
Defined.

Lemma scenario_run :
  extract_streams "capture.bin" (Some "system.pcm"%string)
    (Some "mic.pcm"%string) scenario_fs
  = Returned PyNone scenario_final.
Proof. vm_compute. reflexivity. Qed.

(** C6, as the specification states it: a successful invocation returns the
    pair of the two counters.  On the scenario the counters are 2 and 1 and
    the value returned is [None]. *)
Lemma returns_pair_refuted :
  ~ (forall input_file so mo fs0 v r,
       extract_streams input_file so mo fs0 = Returned v r ->
       exists c, out_count r = Some c /\ v = PyTuple (system c) (mic c)).
Proof.
  intros Hclaim.
  destruct (Hclaim _ _ _ _ _ _ scenario_run) as (c & _ & Hv). discriminate.
Qed.

(** C6, amended. A successful invocation returns [None]; the number of
    packets written to each sink that was opened is kept in [packet_count]
    and printed, with the path of the sink, once the sink is closed.  A
    sink that was not opened is not reported and its counter stays 0. *)
Theorem returns_none_reports_counts (input_file : string)
    (so mo : option string) (fs0 : gmap string bytes) (ps : list packet)
    (tail : bytes) :
  distinct_paths input_file (requested so) (requested mo) ->
  Forall valid_packet ps ->
  partial_packet tail ->
  fs0 !! input_file = Some (encode_all ps ++ tail) ->
  exists r,
    extract_streams input_file so mo fs0 = Returned PyNone r
    /\ out_count r
       = Some {| system := match requested so with
                           | Some _ => stream_count 0 ps
                           | None => 0
                           end;
                 mic := match requested mo with
                        | Some _ => stream_count 1 ps
                        | None => 0
                        end |}
    /\ out_stdout r
       = match requested so with
         | Some _ => [print_system (stream_count 0 ps) so]
         | None => []
         end
         ++ match requested mo with
            | Some _ => [print_mic (stream_count 1 ps) mo]
            | None => []
            end.
Proof.
  intros Hpaths Hvalid Htail Hin. eexists. split.
  - by apply (extract_streams_packets _ _ _ _ ps tail Hpaths).
  - cbn [close_files mk_session out_count out_stdout system_file mic_file
           packet_count system mic].
    destruct (requested so) as [sp|], (requested mo) as [mp|];
      cbn [sink];
      repeat match goal with
        | |- context [tally (Some ?k) ?id ps] =>
            destruct (written_requested k id ps) as [_ ->]
        | |- context [tally None ?id ps] =>
            destruct (written_omitted id ps) as [_ ->]
        end; done.
Qed.

Lemma returns_none_reports_counts_scenario :
  exists r,
    extract_streams "capture.bin" (Some "system.pcm"%string)
      (Some "mic.pcm"%string) scenario_fs = Returned PyNone r
    /\ out_count r = Some {| system := 2; mic := 1 |}
    /\ out_stdout r
       = [ "Extracted 2 system audio packets to system.pcm"%string;
           "Extracted 1 microphone packets to mic.pcm"%string ].
Proof.
  apply (returns_none_reports_counts "capture.bin" (Some "system.pcm"%string)
           (Some "mic.pcm"%string) scenario_fs scenario []).
  - exact scenario_paths.
  - exact scenario_valid.
  - exact partial_nil.
  - reflexivity.
Defined.

(** C7. The input is opened after the sinks and only the input is under
    [with]: when the input file does not exist, [open] raises
    [FileNotFoundError] and the system sink, already opened (and its file
    already created), is left open. *)
Theorem sink_left_open :
  extract_streams "missing.bin" (Some "system.pcm"%string) None
    (∅ : gmap string bytes)
  = Raised FileNotFoundError
      {| out_fs := {[ "system.pcm"%string := [] ]};
         out_input := None;
         out_system :=
           Some {| fname := "system.pcm"; fpos := 0; fclosed := false |};
         out_mic := None;
         out_count := None;
         out_stdout := [] |}.
Proof. vm_compute. reflexivity. Qed.

(** On a normal return every file object there is has been closed. *)
Lemma returned_all_closed (input_file : string) (so mo : option string)
    (fs0 : gmap string bytes) (v : pyval) (r : final) :
  extract_streams input_file so mo fs0 = Returned v r ->
  forall fl,
    out_input r = Some fl \/ out_system r = Some fl \/ out_mic r = Some fl ->
    fclosed fl = true.
Proof.
  unfold extract_streams, extract_streams_fuel.
  destruct (open_files input_file so mo fs0) as [[e r0]|s0]; [done|].
  destruct (demux_loop _ s0) as [s| |]; try done.
  intros [= <- <-] fl. unfold close_files. simpl.
  destruct (system_file s), (mic_file s); simpl;
    intros [H | [H | H]]; by simplify_eq.
Qed.

Lemma open_files_again (input_file : string) (so mo : option string)
    (fs0 fs1 : gmap string bytes) (s0 : session) :
  open_files input_file so mo fs0 = inr s0 ->
  (forall k, requested so <> Some k -> requested mo <> Some k ->
             fs1 !! k = fs0 !! k) ->
  open_files input_file so mo fs1 = inr s0.
Proof.
  intros Hopen Hsame.
  assert (put (requested mo) [] (put (requested so) [] fs1)
          = put (requested mo) [] (put (requested so) [] fs0)) as Heq.
  { apply map_eq. intros k. rewrite !put_lookup.
    repeat case_decide; try done. by apply Hsame. }
  revert Hopen. unfold open_files.
  rewrite !open_if_given_requested. by rewrite Heq.
Qed.

(** C8. Idempotence: a run on the file system that a successful run left
    returns the same value and leaves exactly what the first run left,
    file system included.  When the three paths name three files, the
    file at the path of a sink holds the payloads of its stream in the
    input and nothing of what was there before the run (the sink is opened
    with truncation), so it is there, empty, when no packet matches. *)
Theorem rerun_identical (input_file : string) (so mo : option string)
    (fs0 : gmap string bytes) (v : pyval) (r : final) :
  extract_streams input_file so mo fs0 = Returned v r ->
  extract_streams input_file so mo (out_fs r) = Returned v r
  /\ (distinct_paths input_file (requested so) (requested mo) ->
      exists (ps : list packet) (tail : bytes),
        fs0 !! input_file = Some (encode_all ps ++ tail)
        /\ Forall valid_packet ps /\ partial_packet tail
        /\ (forall sp, requested so = Some sp ->
              out_fs r !! sp = Some (stream_payloads 0 ps))
        /\ (forall mp, requested mo = Some mp ->
              out_fs r !! mp = Some (stream_payloads 1 ps))).
Proof.
  intros Hrun. split.
  - revert Hrun. unfold extract_streams, extract_streams_fuel.
    destruct (open_files input_file so mo fs0) as [[e r0]|s0] eqn:Hopen;
      [done|].
    destruct (demux_loop _ s0) as [s1| |] eqn:Hloop; try done.
    intros [= <- <-]. cbn [close_files out_fs].
    destruct (demux_loop_frame _ _ _ Hloop) as (_ & _ & Hframe).
    destruct (open_files_inv _ _ _ _ _ Hopen) as [Hs0 _].
    assert (open_files input_file so mo (fs s1) = inr s0) as Hopen'.
    { apply (open_files_again _ _ _ fs0); [done|].
      intros k Hk1 Hk2. rewrite Hframe.
      - rewrite Hs0. simpl. by rewrite !put_lookup_ne.
      - rewrite Hs0. simpl. by rewrite sink_name.
      - rewrite Hs0. simpl. by rewrite sink_name. }
    rewrite Hopen'.
    assert (demux_loop (S (length (default [] (fs s1 !! input_file)))) s0
            <> OutOfFuel) as Hfuel
      by (apply (open_files_fuel _ _ _ _ _ _ Hopen'); lia).
    assert (demux_loop (S (length (default [] (fs0 !! input_file)))) s0
            <> OutOfFuel) as Hfuel0 by (by rewrite Hloop).
    by rewrite (demux_loop_agree _ _ s0 Hfuel0 Hfuel), Hloop.
  - intros Hpaths.
    destruct (fs0 !! input_file) as [content|] eqn:Hin.
    + destruct (file_packets content) as (ps & tail & -> & Hvalid & Htail).
      exists ps, tail. split; [done|]. split; [done|]. split; [done|].
      rewrite (extract_streams_packets _ _ _ _ ps tail Hpaths Hvalid Htail Hin)
        in Hrun.
      injection Hrun as _ <-.
      cbn [close_files mk_session out_fs fs]. split.
      * intros sp Hsp.
        rewrite (session_system fs0 input_file _ _ Hpaths sp) by done.
        rewrite Hsp. by destruct (written_requested sp 0 ps) as [-> _].
      * intros mp Hmp.
        rewrite (session_mic fs0 input_file _ _ Hpaths mp) by done.
        rewrite Hmp. by destruct (written_requested mp 1 ps) as [-> _].
    + revert Hrun. unfold extract_streams, extract_streams_fuel, open_files,
        open_rb.
      rewrite !open_if_given_requested.
      rewrite (session_input fs0 input_file _ _ Hpaths), Hin. done.
Qed.

Lemma rerun_identical_scenario :
  extract_streams "capture.bin" (Some "system.pcm"%string)
    (Some "mic.pcm"%string) (out_fs scenario_final)
  = Returned PyNone scenario_final
  /\ (distinct_paths "capture.bin" (requested (Some "system.pcm"%string))
        (requested (Some "mic.pcm"%string)) ->
      exists (ps : list packet) (tail : bytes),
        scenario_fs !! "capture.bin"%string = Some (encode_all ps ++ tail)
        /\ Forall valid_packet ps /\ partial_packet tail
        /\ (forall sp, requested (Some "system.pcm"%string) = Some sp ->
              out_fs scenario_final !! sp = Some (stream_payloads 0 ps))
        /\ (forall mp, requested (Some "mic.pcm"%string) = Some mp ->
              out_fs scenario_final !! mp = Some (stream_payloads 1 ps))).
Proof.
  apply (rerun_identical "capture.bin" (Some "system.pcm"%string)
           (Some "mic.pcm"%string) scenario_fs PyNone scenario_final).
  vm_compute. reflexivity.
Defined.

Lemma iterations_next (k : nat) :
  forall s0 s s',
    iterations k s0 = Some s -> loop_body s = Continue s' ->
    iterations (S k) s0 = Some s'.
Proof.
  induction k as [|k IH]; intros s0 s s' Hk Hstep.
  - injection Hk as ->. simpl. by rewrite Hstep.
  - simpl in Hk. destruct (loop_body s0) as [s1| |] eqn:H0; try done.
    change (iterations (S (S k)) s0)
      with (match loop_body s0 with
            | Continue s2 => iterations (S k) s2
            | _ => None
            end).
    rewrite H0. by apply (IH s1 s).
Qed.

Lemma routed_empty (path : option string) (id : Z) (p : packet) :
  pk_payload p = [] -> routed path id p = [].
Proof.
  intros Hp. unfold routed. destruct path; [|done]. by case_decide.
Qed.

(** C9. A complete packet of declared size 0 is not taken for the end of
    the input: the empty read is not shorter than the size, the packet is
    routed like any other, the counter of its sink (when that sink was
    opened) goes up by one although no byte is written, and the loop goes
    on with the header that follows. *)
Theorem empty_packet_counted (input_file : string) (so mo : option string)
    (fs0 : gmap string bytes) (ps : list packet) (tail : bytes) (k : nat)
    (p : packet) :
  distinct_paths input_file (requested so) (requested mo) ->
  Forall valid_packet ps ->
  fs0 !! input_file = Some (encode_all ps ++ tail) ->
  ps !! k = Some p ->
  pk_payload p = [] ->
  exists s0 s s',
    open_files input_file so mo fs0 = inr s0
    /\ iterations k s0 = Some s
    /\ read_packet s
       = GotPacket (pk_stream p) (pk_time p) 0 []
           (set_f {| fname := input_file; fpos := fpos (f s) + 13;
                     fclosed := false |} s)
    /\ loop_body s = Continue s'
    /\ iterations (S k) s0 = Some s'
    /\ fs s' = fs s
    /\ fpos (f s') = (fpos (f s) + 13)%nat
    /\ (pk_stream p = 0 -> is_Some (requested so) ->
        system (packet_count s') = system (packet_count s) + 1
        /\ mic (packet_count s') = mic (packet_count s))
    /\ (pk_stream p = 1 -> is_Some (requested mo) ->
        mic (packet_count s') = mic (packet_count s) + 1
        /\ system (packet_count s') = system (packet_count s)).
Proof.
  intros Hpaths Hvalid Hin Hp Hempty.
  pose proof (lookup_lt_Some _ _ _ Hp) as Hk.
  pose proof (iterations_prefix fs0 input_file _ _ ps tail k Hpaths Hvalid
                Hin ltac:(lia)) as Hiter.
  pose proof (iteration_at fs0 input_file _ _ ps tail k p Hpaths Hvalid
                Hin Hp) as Hstep.
  eexists. eexists. eexists.
  split; [by apply (open_files_session _ _ _ _ _ Hpaths Hin)|].
  split; [exact Hiter|].
  split; [|split; [exact Hstep|]].
  - assert (valid_packet p) as Hvp
      by (rewrite Forall_lookup in Hvalid; by apply (Hvalid k)).
    pose proof Hin as Hin'.
    rewrite <- (take_drop_middle ps k p Hp) in Hin'.
    rewrite encode_all_app, encode_all_cons, <- !app_assoc in Hin'.
    rewrite (read_packet_encoded _ (encode_all (take k ps))
               (encode_all (drop (S k) ps) ++ tail) p);
      [| done | simpl; by rewrite session_input | done | done ].
    rewrite length_encode_packet, Hempty. simpl. do 3 f_equal; lia.
  - split; [by apply (iterations_next k _ _ _ Hiter)|].
    rewrite !(routed_empty _ _ p Hempty), !app_nil_r.
    cbn [mk_session fs f fpos packet_count system mic].
    rewrite length_encode_packet, Hempty.
    split; [done|]. split; [simpl; lia|].
    split.
    + intros H0 [sp Hsp]. rewrite Hsp.
      pose proof (routed_same sp p) as [_ Hc]. rewrite H0 in Hc.
      rewrite Hc. split; [done|].
      destruct (routed_other (requested mo) 1 p) as [_ ->]; lia.
    + intros H1 [mp Hmp]. rewrite Hmp.
      pose proof (routed_same mp p) as [_ Hc]. rewrite H1 in Hc.
      rewrite Hc. split; [done|].
      destruct (routed_other (requested so) 0 p) as [_ ->]; lia.
Qed.

Lemma empty_packet_counted_example :
  exists s0 s s',
    open_files "capture.bin" (Some "system.pcm"%string)
      (Some "mic.pcm"%string) silent_fs = inr s0
    /\ iterations 0 s0 = Some s
    /\ read_packet s
       = GotPacket 0 7 0 []
           (set_f {| fname := "capture.bin"; fpos := fpos (f s) + 13;
                     fclosed := false |} s)
    /\ loop_body s = Continue s'
    /\ iterations 1 s0 = Some s'
    /\ fs s' = fs s
    /\ fpos (f s') = (fpos (f s) + 13)%nat
    /\ (0 = 0 -> is_Some (requested (Some "system.pcm"%string)) ->
        system (packet_count s') = system (packet_count s) + 1
        /\ mic (packet_count s') = mic (packet_count s))
    /\ (0 = 1 -> is_Some (requested (Some "mic.pcm"%string)) ->
        mic (packet_count s') = mic (packet_count s) + 1
        /\ system (packet_count s') = system (packet_count s)).
Proof.
  apply (empty_packet_counted "capture.bin" (Some "system.pcm"%string)
           (Some "mic.pcm"%string) silent_fs silent_capture [] 0%nat
           silent_packet).
  - exact scenario_paths.
  - unfold silent_capture, silent_packet.
    repeat (apply List.Forall_cons; [unfold valid_packet; simpl; lia|]).
    apply List.Forall_nil.
  - reflexivity.
  - reflexivity.
  - reflexivity.
Defined.

(** ** Termination *)

Lemma loop_body_consumes (s s' : session) :
  loop_body s = Continue s' ->
  exists stream_id timestamp_us packet_size,
    struct_unpack "<BQL"
      (take 13 (drop (fpos (f s)) (file_content (f s) (fs s))))
    = Some [stream_id; timestamp_us; packet_size]
    /\ fpos (f s') = (fpos (f s) + 13 + Z.to_nat packet_size)%nat
    /\ (fpos (f s') <= length (file_content (f s) (fs s)))%nat.
Proof.
  intros Hstep.
  destruct (loop_body_continue _ _ Hstep)
    as (size & _ & _ & _ & Hpos & Hle & _).
  revert Hstep. unfold loop_body.
  destruct (read_packet s) as [|id ts size' data s1|] eqn:Hread; try done.
  intros Hd.
  destruct (read_packet_got _ _ _ _ _ _ Hread) as (_ & Hun & _ & _ & ->).
  destruct (dispatch_continue _ _ _ _ Hd) as (Hf & _).
  exists id, ts, size'. split; [exact Hun|]. split; [by rewrite Hf | exact Hle].
Qed.

(** C10. Termination: an iteration that does not leave the loop moves the
    input on by the thirteen bytes of a header and the payload size the
    header declares, and never past the end of the file; so a loop that is
    allowed more iterations than the input has blocks of thirteen bytes
    ends, whatever the paths are, and the run has a result, the one
    [extract_streams] gives. *)
Theorem loop_terminates (input_file : string) (so mo : option string)
    (fs0 : gmap string bytes) (fuel : nat) :
  (length (default [] (fs0 !! input_file)) < 13 * fuel)%nat ->
  extract_streams_fuel fuel input_file so mo fs0 <> NoResult
  /\ extract_streams_fuel fuel input_file so mo fs0
     = extract_streams input_file so mo fs0
  /\ (forall s s',
        loop_body s = Continue s' ->
        exists stream_id timestamp_us packet_size,
          struct_unpack "<BQL"
            (take 13 (drop (fpos (f s)) (file_content (f s) (fs s))))
          = Some [stream_id; timestamp_us; packet_size]
          /\ fpos (f s') = (fpos (f s) + 13 + Z.to_nat packet_size)%nat
          /\ (fpos (f s') <= length (file_content (f s) (fs s)))%nat).
Proof.
  intros Hfuel.
  assert (extract_streams_fuel fuel input_file so mo fs0 <> NoResult
          /\ extract_streams_fuel fuel input_file so mo fs0
             = extract_streams input_file so mo fs0) as [H1 H2].
  { unfold extract_streams, extract_streams_fuel.
    destruct (open_files input_file so mo fs0) as [[e r0]|s0] eqn:Hopen;
      [done|].
    pose proof (open_files_fuel _ _ _ _ _ fuel Hopen Hfuel) as Hn.
    pose proof (open_files_fuel _ _ _ _ _
                  (S (length (default [] (fs0 !! input_file)))) Hopen
                  ltac:(lia)) as Hm.
    rewrite (demux_loop_agree _ _ s0 Hn Hm).
    destruct (demux_loop fuel s0); done. }
  split; [done|]. split; [done|]. apply loop_body_consumes.
Qed.

Lemma loop_terminates_scenario :
  extract_streams_fuel 4 "capture.bin" (Some "system.pcm"%string)
    (Some "mic.pcm"%string) scenario_fs <> NoResult
  /\ extract_streams_fuel 4 "capture.bin" (Some "system.pcm"%string)
       (Some "mic.pcm"%string) scenario_fs
     = extract_streams "capture.bin" (Some "system.pcm"%string)
         (Some "mic.pcm"%string) scenario_fs
  /\ (forall s s',
        loop_body s = Continue s' ->
        exists stream_id timestamp_us packet_size,
          struct_unpack "<BQL"
            (take 13 (drop (fpos (f s)) (file_content (f s) (fs s))))
          = Some [stream_id; timestamp_us; packet_size]
          /\ fpos (f s') = (fpos (f s) + 13 + Z.to_nat packet_size)%nat
          /\ (fpos (f s') <= length (file_content (f s) (fs s)))%nat).
Proof.
  apply (loop_terminates "capture.bin" (Some "system.pcm"%string)
           (Some "mic.pcm"%string) scenario_fs 4).
  vm_compute. lia.
Defined.

(** * Beyond the claims *)

(** ** The loop raises nothing *)

Lemma loop_body_at_end (s : session) :
  fclosed (f s) = false -> (remaining s < 13)%nat ->
  loop_body s
  = Break (set_f {| fname := fname (f s);
                    fpos := fpos (f s)
                            + length (drop (fpos (f s))
                                        (file_content (f s) (fs s)));
                    fclosed := false |} s).
Proof.
  intros Hopen Hshort. unfold loop_body, read_packet, file_read.
  rewrite Hopen. cbn zeta. destruct (decide (13 < 0)) as [?|_]; [lia|].
  change (Z.to_nat 13) with 13%nat.
  assert (length (drop (fpos (f s)) (file_content (f s) (fs s))) < 13)%nat
    as Hrest by (rewrite length_drop; exact Hshort).
  rewrite take_ge by lia. by rewrite decide_True by done.
Qed.

Lemma dispatch_open (stream_id : Z) (audio_data : bytes) (s : session) :
  all_open s ->
  (forall e s', dispatch stream_id audio_data s <> Raise e s')
  /\ (forall s', dispatch stream_id audio_data s = Continue s' -> all_open s').
Proof.
  intros (Hf & Hs & Hm). unfold dispatch, file_write.
  destruct (stream_id =? 0), (system_file s) as [sf|] eqn:Hsf;
    try rewrite (Hs sf eq_refl);
    try destruct (stream_id =? 1);
    try destruct (mic_file s) as [mf|] eqn:Hmf;
    try rewrite (Hm mf eq_refl);
    (split; [done|]); intros s' [= <-]; unfold all_open; simpl;
    rewrite ?Hsf, ?Hmf; repeat split; try done;
    intros fl [= <-]; auto.
Qed.

Lemma loop_body_open (s : session) :
  all_open s ->
  (forall e s', loop_body s <> Raise e s')
  /\ (forall s', loop_body s = Continue s' -> all_open s').
Proof.
  intros Hall. pose proof Hall as (Hopen & Hs & Hm).
  unfold loop_body, read_packet, file_read.
  rewrite Hopen. cbn zeta. destruct (decide (13 < 0)) as [?|_]; [lia|].
  change (Z.to_nat 13) with 13%nat.
  set (rest := drop (fpos (f s)) (file_content (f s) (fs s))).
  case_decide as Hlen; [done|].
  assert (length (take 13 rest) = 13%nat) as H13
    by (rewrite length_take in *; lia).
  rewrite (unpack_BQL_fields _ H13). cbn [fclosed].
  case_decide; [done|].
  apply dispatch_open. by repeat split.
Qed.

Lemma demux_loop_no_raise (fuel : nat) :
  forall s, all_open s -> forall e s', demux_loop fuel s <> LoopRaise e s'.
Proof.
  induction fuel as [|fuel IH]; intros s Hall e s'; [done|]. simpl.
  destruct (loop_body_open s Hall) as [Hraise Hcont].
  destruct (loop_body s) as [s1|s1|e1 s1] eqn:Hstep; try done.
  - apply IH. by apply Hcont.
  - by destruct (Hraise e1 s1).
Qed.

Lemma sink_open (path : option string) (b : bytes) (fl : file) :
  sink path b = Some fl -> fclosed fl = false.
Proof. destruct path; [by intros [= <-] | done]. Qed.

Lemma open_files_all_open (input_file : string) (so mo : option string)
    (fs0 : gmap string bytes) (s0 : session) :
  open_files input_file so mo fs0 = inr s0 -> all_open s0.
Proof.
  intros Hopen. destruct (open_files_inv _ _ _ _ _ Hopen) as [-> _].
  repeat split; simpl; try done; apply sink_open.
Qed.

Lemma open_files_exists (input_file : string) (so mo : option string)
    (fs0 : gmap string bytes) :
  is_Some (put (requested mo) [] (put (requested so) [] fs0) !! input_file) ->
  open_files input_file so mo fs0
  = inr (mk_session fs0 input_file 0 (requested so) (requested mo) [] []
           {| system := 0; mic := 0 |}).
Proof.
  intros [c Hc]. unfold open_files, open_rb.
  rewrite !open_if_given_requested. by rewrite Hc.
Qed.

Lemma open_files_missing (input_file : string) (so mo : option string)
    (fs0 : gmap string bytes) :
  put (requested mo) [] (put (requested so) [] fs0) !! input_file = None ->
  open_files input_file so mo fs0
  = inl (FileNotFoundError,
         {| out_fs := put (requested mo) [] (put (requested so) [] fs0);
            out_input := None;
            out_system := sink (requested so) [];
            out_mic := sink (requested mo) [];
            out_count := None; out_stdout := [] |}).
Proof.
  intros Hc. unfold open_files, open_rb.
  rewrite !open_if_given_requested. by rewrite Hc.
Qed.

(** The run from its first session: it leaves the loop by [break]. *)
Lemma run_from (input_file : string) (so mo : option string)
    (fs0 : gmap string bytes) (s0 : session) :
  open_files input_file so mo fs0 = inr s0 ->
  exists s,
    demux_loop (S (length (default [] (fs0 !! input_file)))) s0 = LoopExit s
    /\ extract_streams input_file so mo fs0
       = Returned PyNone (close_files so mo s).
Proof.
  intros Hopen.
  pose proof (open_files_fuel _ _ _ _ _
                (S (length (default [] (fs0 !! input_file)))) Hopen
                ltac:(lia)) as Hfuel.
  pose proof (demux_loop_no_raise
                (S (length (default [] (fs0 !! input_file)))) s0
                (open_files_all_open _ _ _ _ _ Hopen)) as Hraise.
  unfold extract_streams, extract_streams_fuel. rewrite Hopen.
  destruct (demux_loop _ s0) as [s|e s|] eqn:Hloop.
  - by exists s.
  - by destruct (Hraise e s).
  - done.
Qed.




(** X2. When the input file does not exist (and is not one of the output
    paths), the run raises [FileNotFoundError] after the sinks were opened:
    the file at each requested output path has been created or emptied, its
    sink is still open, no counter exists, nothing is printed, and every
    other file is as it was. *)
Theorem missing_input_empties_outputs (input_file : string)
    (so mo : option string) (fs0 : gmap string bytes) :
  fs0 !! input_file = None ->
  requested so <> Some input_file -> requested mo <> Some input_file ->
  exists r,
    extract_streams input_file so mo fs0 = Raised FileNotFoundError r
    /\ out_input r = None /\ out_count r = None /\ out_stdout r = []
    /\ (forall sp, requested so = Some sp ->
          out_fs r !! sp = Some []
          /\ out_system r
             = Some {| fname := sp; fpos := 0; fclosed := false |})
    /\ (forall mp, requested mo = Some mp ->
          out_fs r !! mp = Some []
          /\ out_mic r = Some {| fname := mp; fpos := 0; fclosed := false |})
    /\ (forall k, requested so <> Some k -> requested mo <> Some k ->
          out_fs r !! k = fs0 !! k).
Proof.
  intros Hin Hs Hm.
  assert (put (requested mo) [] (put (requested so) [] fs0) !! input_file
          = None) as Hnone by (by rewrite !put_lookup_ne).
  eexists. split.
  { unfold extract_streams, extract_streams_fuel.
    by rewrite (open_files_missing _ _ _ _ Hnone). }
  cbn [out_fs out_input out_system out_mic out_count out_stdout].
  split; [done|]. split; [done|]. split; [done|]. split; [|split].
  - intros sp Hsp. split; [|by rewrite Hsp].
    rewrite !put_lookup. by repeat case_decide.
  - intros mp Hmp. split; [|by rewrite Hmp]. by apply put_lookup_same.
  - intros k Hk1 Hk2. by rewrite !put_lookup_ne.
Qed.

Lemma missing_input_empties_outputs_example :
  exists r,
    extract_streams "missing.bin" (Some "system.pcm"%string)
      (Some "mic.pcm"%string)
      {[ "system.pcm"%string := bytes_of "old" ]}
    = Raised FileNotFoundError r
    /\ out_input r = None /\ out_count r = None /\ out_stdout r = []
    /\ (forall sp, requested (Some "system.pcm"%string) = Some sp ->
          out_fs r !! sp = Some []
          /\ out_system r
             = Some {| fname := sp; fpos := 0; fclosed := false |})
    /\ (forall mp, requested (Some "mic.pcm"%string) = Some mp ->
          out_fs r !! mp = Some []
          /\ out_mic r = Some {| fname := mp; fpos := 0; fclosed := false |})
    /\ (forall k, requested (Some "system.pcm"%string) <> Some k ->
          requested (Some "mic.pcm"%string) <> Some k ->
          out_fs r !! k
          = ({[ "system.pcm"%string := bytes_of "old" ]}
               : gmap string bytes) !! k).
Proof.
  apply (missing_input_empties_outputs "missing.bin"
           (Some "system.pcm"%string) (Some "mic.pcm"%string)
           {[ "system.pcm"%string := bytes_of "old" ]}).
  - reflexivity.
  - discriminate.
  - discriminate.
Defined.

(** X3. An output path equal to the input path destroys the input: the
    sink is opened first and empties the file, the loop then finds nothing
    to read, and the run returns normally with both counters at 0 and every
    requested output empty. *)
Theorem output_over_input (input_file : string) (so mo : option string)
    (fs0 : gmap string bytes) :
  requested so = Some input_file \/ requested mo = Some input_file ->
  exists r,
    extract_streams input_file so mo fs0 = Returned PyNone r
    /\ out_fs r !! input_file = Some []
    /\ out_count r = Some {| system := 0; mic := 0 |}
    /\ (forall sp, requested so = Some sp -> out_fs r !! sp = Some [])
    /\ (forall mp, requested mo = Some mp -> out_fs r !! mp = Some [])
    /\ (forall k, requested so <> Some k -> requested mo <> Some k ->
          out_fs r !! k = fs0 !! k).
Proof.
  intros Halias.
  assert (put (requested mo) [] (put (requested so) [] fs0) !! input_file
          = Some []) as Hempty.
  { rewrite !put_lookup. destruct Halias; by repeat case_decide. }
  pose proof (open_files_exists input_file so mo fs0
                ltac:(rewrite Hempty; eauto)) as Hopen.
  destruct (run_from _ _ _ _ _ Hopen) as (s & Hloop & Hrun).
  assert (remaining
            (mk_session fs0 input_file 0 (requested so) (requested mo) [] []
               {| system := 0; mic := 0 |}) < 13)%nat as Hshort.
  { unfold remaining, file_content. simpl. rewrite Hempty. simpl. lia. }
  simpl in Hloop. rewrite loop_body_at_end in Hloop by done.
  injection Hloop as <-.
  eexists. split; [exact Hrun|].
  cbn [close_files set_f mk_session out_fs out_count fs packet_count].
  split; [exact Hempty|]. split; [done|]. split; [|split].
  - intros sp Hsp. rewrite !put_lookup. by repeat case_decide.
  - intros mp Hmp. by apply put_lookup_same.
  - intros k Hk1 Hk2. by rewrite !put_lookup_ne.
Qed.

Lemma output_over_input_scenario :
  exists r,
    extract_streams "capture.bin" (Some "capture.bin"%string)
      (Some "mic.pcm"%string) scenario_fs = Returned PyNone r
    /\ out_fs r !! "capture.bin"%string = Some []
    /\ out_count r = Some {| system := 0; mic := 0 |}
    /\ (forall sp, requested (Some "capture.bin"%string) = Some sp ->
          out_fs r !! sp = Some [])
    /\ (forall mp, requested (Some "mic.pcm"%string) = Some mp ->
          out_fs r !! mp = Some [])
    /\ (forall k, requested (Some "capture.bin"%string) <> Some k ->
          requested (Some "mic.pcm"%string) <> Some k ->
          out_fs r !! k = scenario_fs !! k).
Proof.
  apply (output_over_input "capture.bin" (Some "capture.bin"%string)
           (Some "mic.pcm"%string) scenario_fs).
  left. reflexivity.
Defined.

(** X4. A run changes no file but those at the requested output paths:
    whether it returns or raises, every other path (the input file, when it
    is not an output path, included) holds what it held before. *)
Theorem other_files_untouched (input_file : string) (so mo : option string)
    (fs0 : gmap string bytes) (k : string) (r : final) :
  requested so <> Some k -> requested mo <> Some k ->
  (exists v, extract_streams input_file so mo fs0 = Returned v r)
  \/ (exists e, extract_streams input_file so mo fs0 = Raised e r) ->
  out_fs r !! k = fs0 !! k.
Proof.
  intros Hk1 Hk2 Hres.
  destruct (put (requested mo) [] (put (requested so) [] fs0) !! input_file)
    as [c|] eqn:Hc.
  - pose proof (open_files_exists input_file so mo fs0
                  ltac:(rewrite Hc; eauto)) as Hopen.
    destruct (run_from _ _ _ _ _ Hopen) as (s & Hloop & Hrun).
    rewrite Hrun in Hres. destruct Hres as [[v [= _ <-]] | [e Hres]]; [|done].
    destruct (demux_loop_frame _ _ _ Hloop) as (_ & _ & Hframe).
    cbn [close_files out_fs]. rewrite Hframe.
    + simpl. by rewrite !put_lookup_ne.
    + simpl. by rewrite sink_name.
    + simpl. by rewrite sink_name.
  - unfold extract_streams, extract_streams_fuel in Hres.
    rewrite (open_files_missing _ _ _ _ Hc) in Hres.
    destruct Hres as [[v Hres] | [e [= _ <-]]]; [done|].
    simpl. by rewrite !put_lookup_ne.
Qed.

Lemma other_files_untouched_scenario :
  out_fs scenario_final !! "capture.bin"%string
  = scenario_fs !! "capture.bin"%string.
Proof.
  apply (other_files_untouched "capture.bin" (Some "system.pcm"%string)
           (Some "mic.pcm"%string) scenario_fs "capture.bin" scenario_final).
  - discriminate.
  - discriminate.
  - left. exists PyNone. vm_compute. reflexivity.
Defined.

Lemma routing_view_same (path : option string) (id : Z) :
  forall ps qs,
    map routing_view ps = map routing_view qs ->
    written path id ps = written path id qs
    /\ tally path id ps = tally path id qs
    /\ length (encode_all ps) = length (encode_all qs).
Proof.
  induction ps as [|p ps IH]; intros [|q qs] Hmap; try done.
  injection Hmap as Hs Hp Hrest.
  destruct (IH qs Hrest) as (Hw & Ht & Hl).
  rewrite !written_cons, !tally_cons, !encode_all_cons, !length_app,
    !length_encode_packet, Hw, Ht, Hl.
  unfold routed, counted. by rewrite Hs, Hp.
Qed.

(** X5. Timestamps are carried but never looked at: two captures whose
    packets have the same streams and payloads in the same order, and
    differ in their timestamps only, leave the same outputs, sinks,
    counters and report, and the input is read to the same position. *)
Theorem timestamps_ignored (input_file : string) (so mo : option string)
    (fs0 : gmap string bytes) (ps qs : list packet) (tail : bytes) :
  distinct_paths input_file (requested so) (requested mo) ->
  Forall valid_packet ps -> Forall valid_packet qs ->
  partial_packet tail ->
  map routing_view ps = map routing_view qs ->
  exists r r',
    extract_streams input_file so mo
      (<[input_file := encode_all ps ++ tail]> fs0) = Returned PyNone r
    /\ extract_streams input_file so mo
         (<[input_file := encode_all qs ++ tail]> fs0) = Returned PyNone r'
    /\ (forall k, k <> input_file -> out_fs r !! k = out_fs r' !! k)
    /\ out_input r = out_input r'
    /\ out_system r = out_system r' /\ out_mic r = out_mic r'
    /\ out_count r = out_count r' /\ out_stdout r = out_stdout r'.
Proof.
  intros Hpaths Hps Hqs Htail Hview.
  destruct (routing_view_same (requested so) 0 ps qs Hview) as (Hw0 & Ht0 & Hl).
  destruct (routing_view_same (requested mo) 1 ps qs Hview) as (Hw1 & Ht1 & _).
  eexists. eexists. split; [|split].
  - apply (extract_streams_packets _ _ _ _ ps tail Hpaths Hps Htail).
    apply lookup_insert_eq.
  - apply (extract_streams_packets _ _ _ _ qs tail Hpaths Hqs Htail).
    apply lookup_insert_eq.
  - cbn [close_files mk_session out_fs out_input out_system out_mic out_count
           out_stdout fs f system_file mic_file packet_count].
    rewrite !length_app, Hw0, Hw1, Ht0, Ht1, Hl.
    split; [|done].
    intros k Hk. rewrite !put_lookup.
    repeat case_decide; try done. by rewrite !lookup_insert_ne.
Qed.

Lemma timestamps_ignored_scenario :
  exists r r',
    extract_streams "capture.bin" (Some "system.pcm"%string)
      (Some "mic.pcm"%string)
      (<["capture.bin"%string := encode_all scenario ++ []]> ∅)
    = Returned PyNone r
    /\ extract_streams "capture.bin" (Some "system.pcm"%string)
         (Some "mic.pcm"%string)
         (<["capture.bin"%string :=
              encode_all
                [ {| pk_stream := 0; pk_time := 5;
                     pk_payload := bytes_of "AAAA" |};
                  {| pk_stream := 1; pk_time := 4;
                     pk_payload := bytes_of "BBB" |};
                  {| pk_stream := 0; pk_time := 3;
                     pk_payload := bytes_of "CC" |} ] ++ []]> ∅)
       = Returned PyNone r'
    /\ (forall k, k <> "capture.bin"%string -> out_fs r !! k = out_fs r' !! k)
    /\ out_input r = out_input r'
    /\ out_system r = out_system r' /\ out_mic r = out_mic r'
    /\ out_count r = out_count r' /\ out_stdout r = out_stdout r'.
Proof.
  apply (timestamps_ignored "capture.bin" (Some "system.pcm"%string)
           (Some "mic.pcm"%string) ∅ scenario
           [ {| pk_stream := 0; pk_time := 5; pk_payload := bytes_of "AAAA" |};
             {| pk_stream := 1; pk_time := 4; pk_payload := bytes_of "BBB" |};
             {| pk_stream := 0; pk_time := 3; pk_payload := bytes_of "CC" |} ]
           []).
  - exact scenario_paths.
  - exact scenario_valid.
  - repeat (apply List.Forall_cons; [unfold valid_packet; simpl; lia|]).
    apply List.Forall_nil.
  - exact partial_nil.
  - reflexivity.
Defined.

(** X6. Extraction commutes with concatenation of captures: for a capture
    made of two captures one after the other, each output is the output
    for the first followed by the output for the second, and each counter
    is the sum of the two counters. *)
Theorem captures_concatenate (input_file : string) (so mo : option string)
    (fs0 : gmap string bytes) (ps qs : list packet) :
  distinct_paths input_file (requested so) (requested mo) ->
  Forall valid_packet ps -> Forall valid_packet qs ->
  exists r1 r2 r12 c1 c2,
    extract_streams input_file so mo (<[input_file := encode_all ps]> fs0)
    = Returned PyNone r1
    /\ extract_streams input_file so mo (<[input_file := encode_all qs]> fs0)
       = Returned PyNone r2
    /\ extract_streams input_file so mo
         (<[input_file := encode_all ps ++ encode_all qs]> fs0)
       = Returned PyNone r12
    /\ (forall sp, requested so = Some sp ->
          exists a b,
            out_fs r1 !! sp = Some a /\ out_fs r2 !! sp = Some b
            /\ out_fs r12 !! sp = Some (a ++ b))
    /\ (forall mp, requested mo = Some mp ->
          exists a b,
            out_fs r1 !! mp = Some a /\ out_fs r2 !! mp = Some b
            /\ out_fs r12 !! mp = Some (a ++ b))
    /\ out_count r1 = Some c1 /\ out_count r2 = Some c2
    /\ out_count r12
       = Some {| system := system c1 + system c2; mic := mic c1 + mic c2 |}.
Proof.
  intros Hpaths Hps Hqs.
  assert (forall (m : gmap string bytes) (xs : list packet),
            <[input_file := encode_all xs]> m !! input_file
            = Some (encode_all xs ++ [])) as Hin
    by (intros m xs; by rewrite app_nil_r, lookup_insert_eq).
  assert (Forall valid_packet (ps ++ qs)) as Hpq by (by apply Forall_app).
  rewrite <- encode_all_app.
  eexists. eexists. eexists. eexists. eexists.
  split; [apply (extract_streams_packets _ _ _ _ ps [] Hpaths Hps partial_nil
                   (Hin _ _))|].
  split; [apply (extract_streams_packets _ _ _ _ qs [] Hpaths Hqs partial_nil
                   (Hin _ _))|].
  split; [apply (extract_streams_packets _ _ _ _ (ps ++ qs) [] Hpaths Hpq
                   partial_nil (Hin _ _))|].
  cbn [close_files mk_session out_fs out_count fs packet_count system mic].
  rewrite !written_app, !tally_app.
  split; [|split; [|done]].
  - intros sp Hsp. eexists. eexists.
    rewrite !(session_system _ input_file _ _ Hpaths sp) by done. done.
  - intros mp Hmp. eexists. eexists.
    rewrite !(session_mic _ input_file _ _ Hpaths mp) by done. done.
Qed.

Lemma captures_concatenate_scenario :
  exists r1 r2 r12 c1 c2,
    extract_streams "capture.bin" (Some "system.pcm"%string)
      (Some "mic.pcm"%string)
      (<["capture.bin"%string := encode_all scenario]> ∅) = Returned PyNone r1
    /\ extract_streams "capture.bin" (Some "system.pcm"%string)
         (Some "mic.pcm"%string)
         (<["capture.bin"%string := encode_all silent_capture]> ∅)
       = Returned PyNone r2
    /\ extract_streams "capture.bin" (Some "system.pcm"%string)
         (Some "mic.pcm"%string)
         (<["capture.bin"%string :=
              encode_all scenario ++ encode_all silent_capture]> ∅)
       = Returned PyNone r12
    /\ (forall sp, requested (Some "system.pcm"%string) = Some sp ->
          exists a b,
            out_fs r1 !! sp = Some a /\ out_fs r2 !! sp = Some b
            /\ out_fs r12 !! sp = Some (a ++ b))
    /\ (forall mp, requested (Some "mic.pcm"%string) = Some mp ->
          exists a b,
            out_fs r1 !! mp = Some a /\ out_fs r2 !! mp = Some b
            /\ out_fs r12 !! mp = Some (a ++ b))
    /\ out_count r1 = Some c1 /\ out_count r2 = Some c2
    /\ out_count r12
       = Some {| system := system c1 + system c2; mic := mic c1 + mic c2 |}.
Proof.
  apply (captures_concatenate "capture.bin" (Some "system.pcm"%string)
           (Some "mic.pcm"%string) ∅ scenario silent_capture).
  - exact scenario_paths.
  - exact scenario_valid.
  - unfold silent_capture, silent_packet.
    repeat (apply List.Forall_cons; [unfold valid_packet; simpl; lia|]).
    apply List.Forall_nil.
Defined.

(** X7. The header format is a bijection between buffers of thirteen bytes
    and triples of a stream identifier below 2^8, a timestamp below 2^64
    and a size below 2^32: [struct.unpack('<BQL', ...)] fails on every
    buffer of another length, succeeds on every buffer of thirteen bytes
    with three fields in those ranges, the fields determine the buffer, and
    a header made from fields in range decodes to them. *)
Theorem header_codec (header : bytes) (stream_id timestamp_us packet_size : Z) :
  (length header <> 13%nat -> struct_unpack "<BQL" header = None)
  /\ (length header = 13%nat ->
      exists a b c,
        struct_unpack "<BQL" header = Some [a; b; c]
        /\ 0 <= a < 2 ^ 8 /\ 0 <= b < 2 ^ 64 /\ 0 <= c < 2 ^ 32
        /\ encode_header a b c = header)
  /\ (0 <= stream_id < 2 ^ 8 -> 0 <= timestamp_us < 2 ^ 64 ->
      0 <= packet_size < 2 ^ 32 ->
      struct_unpack "<BQL"
        (encode_header stream_id timestamp_us packet_size)
      = Some [stream_id; timestamp_us; packet_size]).
Proof.
  split; [|split].
  - intros Hlen.
    destruct (struct_unpack "<BQL" header) as [vs|] eqn:Hun; [|done].
    by apply unpack_BQL_length in Hun.
  - intros Hlen. pose proof (unpack_BQL_fields header Hlen) as Hun.
    eexists. eexists. eexists. split; [exact Hun|].
    pose proof (unpack_BQL_size _ _ _ _ Hun) as (R1 & R2 & R3).
    split; [exact R1|]. split; [exact R2|]. split; [exact R3|].
    by apply encode_header_fields.
  - intros R1 R2 R3. rewrite unpack_encode_header.
    by rewrite !Z.mod_small by lia.
Qed.

Lemma tally_bound (so mo : option string) (ps : list packet) :
  0 <= tally so 0 ps /\ 0 <= tally mo 1 ps
  /\ Z.of_nat (length (written so 0 ps) + length (written mo 1 ps))
     + 13 * (tally so 0 ps + tally mo 1 ps)
     <= Z.of_nat (length (encode_all ps)).
Proof.
  induction ps as [|p ps (IH0 & IH1 & IH)]; [done|].
  rewrite !written_cons, !tally_cons, encode_all_cons, !length_app,
    length_encode_packet.
  pose proof (packet_balance so mo p) as Hb.
  assert (0 <= counted so 0 p /\ 0 <= counted mo 1 p
          /\ counted so 0 p + counted mo 1 p <= 1) as (C0 & C1 & C).
  { unfold counted. destruct so, mo; repeat case_decide; lia. }
  lia.
Qed.

(** X8. The outputs are never larger than the input allows: the sizes of
    the two output files plus thirteen bytes for every packet counted is at
    most the size of the input file, and no counter is negative. *)
Theorem outputs_bounded (input_file : string) (so mo : option string)
    (fs0 : gmap string bytes) (content : bytes) :
  distinct_paths input_file (requested so) (requested mo) ->
  fs0 !! input_file = Some content ->
  exists r c,
    extract_streams input_file so mo fs0 = Returned PyNone r
    /\ out_count r = Some c
    /\ 0 <= system c /\ 0 <= mic c
    /\ Z.of_nat (sink_bytes (out_system r) (out_fs r)
                 + sink_bytes (out_mic r) (out_fs r))
       + 13 * (system c + mic c)
       <= Z.of_nat (length content).
Proof.
  intros Hpaths Hin.
  destruct (file_packets content) as (ps & tail & -> & Hvalid & Htail).
  eexists. eexists.
  split; [by apply (extract_streams_packets _ _ _ _ ps tail Hpaths)|].
  cbn [close_files mk_session out_fs out_system out_mic out_count fs
         system_file mic_file packet_count system mic].
  split; [done|].
  assert (forall o m, sink_bytes (file_close <$> o) m = sink_bytes o m)
    as Hclosed by (by intros [fl|] m).
  rewrite !Hclosed.
  rewrite (sink_bytes_system fs0 input_file _ _ _ _ Hpaths).
  rewrite sink_bytes_mic, !length_written, length_app.
  destruct (tally_bound (requested so) (requested mo) ps) as (H0 & H1 & H).
  cbn [system mic]. lia.
Qed.

Lemma outputs_bounded_scenario :
  exists r c,
    extract_streams "capture.bin" (Some "system.pcm"%string)
      (Some "mic.pcm"%string) scenario_fs = Returned PyNone r
    /\ out_count r = Some c
    /\ 0 <= system c /\ 0 <= mic c
    /\ Z.of_nat (sink_bytes (out_system r) (out_fs r)
                 + sink_bytes (out_mic r) (out_fs r))
       + 13 * (system c + mic c)
       <= Z.of_nat (length scenario_input).
Proof.
  apply (outputs_bounded "capture.bin" (Some "system.pcm"%string)
           (Some "mic.pcm"%string) scenario_fs scenario_input).
  - exact scenario_paths.
  - reflexivity.
Defined.

Lemma close_files_unopened (so so' mo mo' : option string) (s : session) :
  (is_Some (system_file s) -> so = so') ->
  (is_Some (mic_file s) -> mo = mo') ->
  close_files so mo s = close_files so' mo' s.
Proof.
  intros Hs Hm. unfold close_files.
  destruct (system_file s) as [sf|], (mic_file s) as [mf|];
    rewrite ?(Hs ltac:(eauto)), ?(Hm ltac:(eauto)); done.
Qed.

Lemma same_sinks_same_run (input_file : string) (so so' mo mo' : option string)
    (fs0 : gmap string bytes) :
  requested so = requested so' -> requested mo = requested mo' ->
  (is_Some (requested so) -> so = so') ->
  (is_Some (requested mo) -> mo = mo') ->
  extract_streams input_file so mo fs0 = extract_streams input_file so' mo' fs0.
Proof.
  intros Hrs Hrm Hs Hm.
  assert (open_files input_file so mo fs0 = open_files input_file so' mo' fs0)
    as Hsame
    by (unfold open_files; rewrite !open_if_given_requested, Hrs, Hrm; done).
  unfold extract_streams, extract_streams_fuel. rewrite <- Hsame.
  destruct (open_files input_file so mo fs0) as [[e r0]|s0] eqn:Hopen; [done|].
  destruct (demux_loop _ s0) as [s|e s|] eqn:Hloop; try done.
  f_equal. destruct (demux_loop_frame _ _ _ Hloop) as (Hn1 & Hn2 & _).
  destruct (open_files_inv _ _ _ _ _ Hopen) as [-> _].
  simpl in Hn1, Hn2. rewrite sink_name in Hn1, Hn2.
  apply close_files_unopened.
  - intros [sf Hsf]. apply Hs. rewrite <- Hn1, Hsf. by eexists.
  - intros [mf Hmf]. apply Hm. rewrite <- Hn2, Hmf. by eexists.
Qed.

(** X9. An empty string as an output path is the same as no path: the
    whole outcome of the run (files, sinks, counters, report, exception) is
    the one obtained with [None] in its place, for either output. *)
Theorem empty_path_is_no_path (input_file : string) (other : option string)
    (fs0 : gmap string bytes) :
  extract_streams input_file (Some EmptyString) other fs0
  = extract_streams input_file None other fs0
  /\ extract_streams input_file other (Some EmptyString) fs0
     = extract_streams input_file other None fs0.
Proof.
  split; apply same_sinks_same_run; try done; by intros [x Hx].
Qed.

(** X10. The entry point never indexes [sys.argv] out of range.  Without an
    input path it prints the usage line and exits with status 1 before any
    file is touched; otherwise it runs [extract_streams] on the first
    argument, with the second and third as output paths and the two
    conventional names where they are missing; arguments after the third
    are ignored. *)
Theorem main_cases (argv : list string) (fs0 : gmap string bytes) :
  main argv fs0 <> IndexError
  /\ ((length argv < 2)%nat -> main argv fs0 = SysExit 1 [usage] fs0)
  /\ (forall prog input_file rest,
        argv = prog :: input_file :: rest ->
        main argv fs0
        = Ran (extract_streams input_file
                 (Some (default "system_extracted.pcm"%string (rest !! 0%nat)))
                 (Some (default "mic_extracted.pcm"%string (rest !! 1%nat)))
                 fs0)).
Proof.
  unfold main. split; [|split].
  - destruct argv as [|a [|b [|c [|d rest]]]]; simpl; try done.
  - intros Hlen. by rewrite decide_True.
  - intros prog input_file rest ->.
    destruct rest as [|c [|d rest]]; simpl; try done.
Qed.

(** X11. Run with the input path alone, on a capture of complete packets
    that is not itself named like one of the two conventional outputs, the
    script writes the stream-0 payloads to [system_extracted.pcm] and the
    stream-1 payloads to [mic_extracted.pcm], and reports both counts. *)
Theorem main_default_outputs (prog input_file : string)
    (fs0 : gmap string bytes) (ps : list packet) :
  input_file <> "system_extracted.pcm"%string ->
  input_file <> "mic_extracted.pcm"%string ->
  Forall valid_packet ps ->
  fs0 !! input_file = Some (encode_all ps) ->
  exists r,
    main [prog; input_file] fs0 = Ran (Returned PyNone r)
    /\ out_fs r !! "system_extracted.pcm"%string
       = Some (stream_payloads 0 ps)
    /\ out_fs r !! "mic_extracted.pcm"%string = Some (stream_payloads 1 ps)
    /\ out_fs r !! input_file = Some (encode_all ps)
    /\ out_stdout r
       = [ print_system (stream_count 0 ps)
             (Some "system_extracted.pcm"%string);
           print_mic (stream_count 1 ps) (Some "mic_extracted.pcm"%string) ].
Proof.
  intros H1 H2 Hvalid Hin.
  destruct (distinct_given input_file "system_extracted.pcm"
              "mic_extracted.pcm") as (Hpaths & Hrs & Hrm); try done.
  rewrite <- (app_nil_r (encode_all ps)) in Hin.
  eexists. split.
  - unfold main. cbn [length decide]. simpl.
    by rewrite (extract_streams_packets _ _ _ _ ps [] Hpaths Hvalid
                  partial_nil Hin).
  - rewrite Hrs, Hrm.
    cbn [close_files mk_session out_fs out_stdout fs system_file mic_file
           packet_count system mic sink].
    destruct (written_requested "system_extracted.pcm" 0 ps) as [-> ->].
    destruct (written_requested "mic_extracted.pcm" 1 ps) as [-> ->].
    rewrite Hrs, Hrm in Hpaths.
    split; [by apply (session_system fs0 input_file _ _ Hpaths)|].
    split; [by apply (session_mic fs0 input_file _ _ Hpaths)|].
    split; [|done].
    by rewrite (session_input fs0 input_file _ _ Hpaths), Hin, app_nil_r.
Qed.

Lemma main_default_outputs_scenario :
  exists r,
    main [ "extract_streams.py"%string; "capture.bin"%string ] scenario_fs
    = Ran (Returned PyNone r)
    /\ out_fs r !! "system_extracted.pcm"%string = Some (bytes_of "AAAACC")
    /\ out_fs r !! "mic_extracted.pcm"%string = Some (bytes_of "BBB")
    /\ out_fs r !! "capture.bin"%string = Some (encode_all scenario)
    /\ out_stdout r
       = [ "Extracted 2 system audio packets to system_extracted.pcm"%string;
           "Extracted 1 microphone packets to mic_extracted.pcm"%string ].
Proof.
  apply (main_default_outputs "extract_streams.py" "capture.bin" scenario_fs
           scenario).
  - discriminate.
  - discriminate.
  - exact scenario_valid.
  - reflexivity.
Defined.

Lemma requested_nonempty (path : option string) :
  requested path <> Some EmptyString.
Proof.
  unfold requested. destruct path as [p|]; [|done].
  case_decide; congruence.
Qed.

(** X12. From the command line an output is switched off by an empty
    argument: with [""] as second argument the script does what
    [extract_streams] does without a system path; when that run returns,
    no system sink was opened and no file with the empty name was
    written. *)
Theorem main_empty_argument (prog input_file mic_output : string)
    (fs0 : gmap string bytes) :
  main [prog; input_file; EmptyString; mic_output] fs0
  = Ran (extract_streams input_file None (Some mic_output) fs0)
  /\ main [prog; input_file; EmptyString] fs0
     = Ran (extract_streams input_file None
              (Some "mic_extracted.pcm"%string) fs0)
  /\ forall v r,
       main [prog; input_file; EmptyString; mic_output] fs0
       = Ran (Returned v r) ->
       out_system r = None /\ out_fs r !! EmptyString = fs0 !! EmptyString.
Proof.
  assert (forall mo,
            extract_streams input_file (Some EmptyString) mo fs0
            = extract_streams input_file None mo fs0) as Hsame
    by (intros mo; apply same_sinks_same_run; try done; by intros [x Hx]).
  split; [|split].
  - unfold main. simpl. by rewrite Hsame.
  - unfold main. simpl. by rewrite Hsame.
  - intros v r. unfold main. simpl. rewrite Hsame. intros [= Hrun].
    revert Hrun. unfold extract_streams, extract_streams_fuel.
    destruct (open_files input_file None (Some mic_output) fs0)
      as [[e r0]|s0] eqn:Hopen; [done|].
    destruct (demux_loop _ s0) as [s|e s|] eqn:Hloop; try done.
    intros [= _ <-].
    destruct (demux_loop_frame _ _ _ Hloop) as (Hn1 & _ & Hframe).
    destruct (open_files_inv _ _ _ _ _ Hopen) as [-> _].
    cbn [close_files out_system out_fs]. split.
    + simpl in Hn1. by destruct (system_file s).
    + rewrite Hframe.
      * cbn [mk_session fs].
        by rewrite (put_lookup_ne (requested (Some mic_output)))
          by apply requested_nonempty.
      * done.
      * cbn [mk_session mic_file]. rewrite sink_name.
        apply requested_nonempty.
Qed.

Lemma main_empty_argument_scenario :
  main [ "extract_streams.py"%string; "capture.bin"%string; EmptyString;
         "mic.pcm"%string ] scenario_fs
  = Ran (extract_streams "capture.bin" None (Some "mic.pcm"%string)
           scenario_fs)
  /\ out_system
       {| out_fs := {[ "capture.bin"%string := scenario_input;
                       "mic.pcm"%string := bytes_of "BBB" ]};
          out_input :=
            Some {| fname := "capture.bin"; fpos := 48; fclosed := true |};
          out_system := None;
          out_mic := Some {| fname := "mic.pcm"; fpos := 3; fclosed := true |};
          out_count := Some {| system := 0; mic := 1 |};
          out_stdout :=
            [ "Extracted 1 microphone packets to mic.pcm"%string ] |}
     = None.
Proof.
  destruct (main_empty_argument "extract_streams.py" "capture.bin" "mic.pcm"
              scenario_fs) as (Hmain & _ & Hrun).
  split; [exact Hmain|].
  apply (Hrun PyNone). vm_compute. reflexivity.
Defined.

Lemma header_codec_example :
  struct_unpack "<BQL" (bytes_of "short") = None
  /\ (exists a b c,
        struct_unpack "<BQL" (encode_header 1 2000 3) = Some [a; b; c]
        /\ 0 <= a < 2 ^ 8 /\ 0 <= b < 2 ^ 64 /\ 0 <= c < 2 ^ 32
        /\ encode_header a b c = encode_header 1 2000 3)
  /\ struct_unpack "<BQL" (encode_header 1 2000 3) = Some [1; 2000; 3].
Proof.
  split; [|split].
  - apply (header_codec (bytes_of "short") 0 0 0). discriminate.
  - apply (header_codec (encode_header 1 2000 3) 0 0 0). reflexivity.
  - apply (header_codec [] 1 2000 3); lia.
Defined.

Lemma main_cases_example :
  main [ "extract_streams.py"%string ] scenario_fs
  = SysExit 1 [usage] scenario_fs
  /\ main [ "extract_streams.py"%string; "capture.bin"%string;
            "a.pcm"%string; "b.pcm"%string; "ignored"%string ] scenario_fs
     = Ran (extract_streams "capture.bin" (Some "a.pcm"%string)
              (Some "b.pcm"%string) scenario_fs).
Proof.
  split.
  - apply (main_cases [ "extract_streams.py"%string ] scenario_fs).
    simpl. lia.
  - destruct (main_cases
                [ "extract_streams.py"%string; "capture.bin"%string;
                  "a.pcm"%string; "b.pcm"%string; "ignored"%string ]
                scenario_fs) as (_ & _ & Hrun).
    apply (Hrun "extract_streams.py"%string "capture.bin"%string
             [ "a.pcm"%string; "b.pcm"%string; "ignored"%string ]).
    reflexivity.
Defined.

(** ** The framing is unambiguous *)

Lemma partial_not_packet (q : packet) (rest : bytes) :
  valid_packet q -> ~ partial_packet (encode_packet q ++ rest).
Proof.
  intros (Hid & Hts & Hsz) [Hshort | (id & ts & size & Hun & Hlt)].
  - rewrite length_app, length_encode_packet in Hshort. lia.
  - unfold encode_packet in Hun, Hlt. rewrite <- app_assoc in Hun, Hlt.
    rewrite take_app_length' in Hun by (by rewrite length_encode_header).
    rewrite drop_app_length' in Hlt by (by rewrite length_encode_header).
    rewrite unpack_encode_header in Hun. injection Hun as _ _ Hsize.
    rewrite Z.mod_small in Hsize by lia.
    rewrite length_app in Hlt. lia.
Qed.

Lemma encode_packet_inj (p q : packet) (r1 r2 : bytes) :
  valid_packet p -> valid_packet q ->
  encode_packet p ++ r1 = encode_packet q ++ r2 -> p = q /\ r1 = r2.
Proof.
  intros (Hid & Hts & Hsz) (Hid' & Hts' & Hsz') Heq.
  unfold encode_packet in Heq. rewrite <- !app_assoc in Heq.
  pose proof (f_equal (take 13) Heq) as Hhdr.
  rewrite !take_app_length' in Hhdr by (by rewrite length_encode_header).
  pose proof (f_equal (drop 13) Heq) as Hpay.
  rewrite !drop_app_length' in Hpay by (by rewrite length_encode_header).
  pose proof (f_equal (struct_unpack "<BQL") Hhdr) as Hun.
  rewrite !unpack_encode_header in Hun.
  rewrite !Z.mod_small in Hun by lia. injection Hun as H1 H2 H3.
  apply app_inj_1 in Hpay as [Hp Hr]; [|lia].
  split; [|done]. destruct p, q. simpl in *. by subst.
Qed.

(** X13. A file is read in one way only: if its content is a sequence of
    complete packets followed by a partial packet in two ways, the two
    sequences and the two partial packets are the same.  So the packets
    that the loop routes are determined by the bytes of the file. *)
Theorem packets_unique (ps qs : list packet) (tail tail' : bytes) :
  Forall valid_packet ps -> Forall valid_packet qs ->
  partial_packet tail -> partial_packet tail' ->
  encode_all ps ++ tail = encode_all qs ++ tail' ->
  ps = qs /\ tail = tail'.
Proof.
  intros Hps. revert qs.
  induction Hps as [|p ps Hp Hps IH]; intros qs Hqs Htail Htail' Heq.
  - destruct Hqs as [|q qs Hq Hqs]; [done|].
    rewrite encode_all_cons, <- app_assoc in Heq.
    change (encode_all [] ++ tail) with tail in Heq.
    rewrite Heq in Htail. by apply partial_not_packet in Htail.
  - destruct Hqs as [|q qs Hq Hqs].
    + rewrite encode_all_cons, <- app_assoc in Heq.
      change (encode_all [] ++ tail') with tail' in Heq.
      rewrite <- Heq in Htail'. by apply partial_not_packet in Htail'.
    + rewrite !encode_all_cons, <- !app_assoc in Heq.
      destruct (encode_packet_inj p q _ _ Hp Hq Heq) as [-> Hrest].
      destruct (IH qs Hqs Htail Htail' Hrest) as [-> ->]. done.
Qed.

Lemma packets_unique_scenario :
  scenario = scenario /\ take 5 (encode_header 0 4000 2)
                         = take 5 (encode_header 0 4000 2).
Proof.
  apply (packets_unique scenario scenario
           (take 5 (encode_header 0 4000 2))
           (take 5 (encode_header 0 4000 2))).
  - exact scenario_valid.
  - exact scenario_valid.
  - left. simpl. lia.
  - left. simpl. lia.
  - reflexivity.
Defined.

(** X14. A wrong input name on the command line costs the conventional
    output files their content: run with the name of a file that does not
    exist and no output paths, the script ends with [FileNotFoundError],
    and [system_extracted.pcm] and [mic_extracted.pcm] have been created or
    emptied on the way. *)
Theorem main_missing_input (prog input_file : string)
    (fs0 : gmap string bytes) :
  fs0 !! input_file = None ->
  input_file <> "system_extracted.pcm"%string ->
  input_file <> "mic_extracted.pcm"%string ->
  exists r,
    main [prog; input_file] fs0 = Ran (Raised FileNotFoundError r)
    /\ out_fs r !! "system_extracted.pcm"%string = Some []
    /\ out_fs r !! "mic_extracted.pcm"%string = Some []
    /\ out_stdout r = [].
Proof.
  intros Hin H1 H2.
  destruct (distinct_given input_file "system_extracted.pcm"
              "mic_extracted.pcm") as (Hpaths & Hrs & Hrm); try done.
  assert (put (requested (Some "mic_extracted.pcm"%string)) []
            (put (requested (Some "system_extracted.pcm"%string)) [] fs0)
          !! input_file = None) as Hnone
    by (by rewrite (session_input fs0 input_file _ _ Hpaths)).
  eexists. split.
  - unfold main. simpl. unfold extract_streams, extract_streams_fuel.
    by rewrite (open_files_missing _ _ _ _ Hnone).
  - cbn [out_fs out_stdout]. rewrite Hrs, Hrm in *.
    split; [by apply (session_system fs0 input_file _ _ Hpaths)|].
    split; [by apply (session_mic fs0 input_file _ _ Hpaths)|done].
Qed.

Lemma main_missing_input_example :
  exists r,
    main [ "extract_streams.py"%string; "captrue.bin"%string ]
      {[ "capture.bin"%string := scenario_input;
         "system_extracted.pcm"%string := bytes_of "AAAACC" ]}
    = Ran (Raised FileNotFoundError r)
    /\ out_fs r !! "system_extracted.pcm"%string = Some []
    /\ out_fs r !! "mic_extracted.pcm"%string = Some []
    /\ out_stdout r = [].
Proof.
  apply (main_missing_input "extract_streams.py" "captrue.bin"
           {[ "capture.bin"%string := scenario_input;
              "system_extracted.pcm"%string := bytes_of "AAAACC" ]}).
  - reflexivity.
  - discriminate.
  - discriminate.
Defined.
